(** * xlwings value-conversion pipeline: a shallow embedding

    Source files embedded here:
    - [xlwings/conversion/standard.py]: the stages of the read and write
      pipelines, the accessors that assemble them and [DictConverter];
    - [xlwings/conversion/object_conv.py]: [KeyValuePair] and
      [ObjectConverter] with its process-wide cache.

    Python values are an inductive type [PyVal]; a Python call that may raise
    returns a [Result]; the object cache and the calls made on the range
    collaborator are threaded explicitly.  Numbers are integers: floating
    point cells are outside the embedding. *)

From Stdlib Require Import List ZArith String Ascii Bool Lia Sorting Permutation.
Import ListNotations.
Local Open Scope string_scope.
Local Open Scope Z_scope.

Set Implicit Arguments.

(* ================================================================= *)
(** ** Exceptions and results *)

(** The exception classes the two source files raise or let escape.
    [PlainException] is the bare [Exception("Range must be 1-by-n or n-by-1
    when ndim=1.")] of [AdjustDimensionsStage]. *)
Inductive Exn : Type :=
| KeyError
| TypeError
| ValueError
| IndexError
| AssertionError
| AttributeError
| PlainException.

Inductive Result (A : Type) : Type :=
| Ok (a : A)
| Raise (e : Exn).

Arguments Ok {A} a.
Arguments Raise {A} e.

Definition bindR {A B : Type} (r : Result A) (k : A -> Result B) : Result B :=
  match r with
  | Ok a => k a
  | Raise e => Raise e
  end.

Notation "x <- r ;; k" := (bindR r (fun x => k))
  (at level 61, r at next level, right associativity).

Fixpoint mapR {A B : Type} (f : A -> Result B) (l : list A) : Result (list B) :=
  match l with
  | [] => Ok []
  | a :: l' => b <- f a ;; bs <- mapR f l' ;; Ok (b :: bs)
  end.

(* ================================================================= *)
(** ** Classes and values *)

(** A class object: the built-in classes the sources mention, and user
    classes, which carry their name and the names of their proper ancestors
    in method-resolution order. *)
Inductive PyType : Type :=
| TObject
| TNoneType
| TBool
| TInt
| TStr
| TList
| TTuple
| TDict
| TKeyValuePair
| TRange
| TUser (name : string) (ancestors : list string).

(** [cls.mro()], as the list of class names. *)
Definition mro (t : PyType) : list string :=
  match t with
  | TObject => ["object"]
  | TNoneType => ["NoneType"; "object"]
  | TBool => ["bool"; "int"; "object"]
  | TInt => ["int"; "object"]
  | TStr => ["str"; "object"]
  | TList => ["list"; "object"]
  | TTuple => ["tuple"; "object"]
  | TDict => ["dict"; "object"]
  | TKeyValuePair => ["KeyValuePair"; "object"]
  | TRange => ["Range"; "object"]
  | TUser n anc => n :: anc
  end.

Definition PyType_eq_dec (a b : PyType) : {a = b} + {a <> b}.
Proof.
  decide equality.
  - apply (list_eq_dec string_dec).
  - apply string_dec.
Defined.

Definition PyType_eqb (a b : PyType) : bool :=
  if PyType_eq_dec a b then true else false.

(** Python values.  Objects with identity carry an address: two references
    denote the same object exactly when class and address agree. *)
#[warnings="-register-all"]
Inductive PyVal : Type :=
| VNone
| VBool (b : bool)
| VInt (z : Z)
| VStr (s : string)
| VList (l : list PyVal)
| VTuple (l : list PyVal)
| VDict (items : list (PyVal * PyVal))
| VKeyValuePair (addr : nat) (key value : PyVal)
| VObj (cls : PyType) (addr : nat).

(** [type(v)] *)
Definition type_of (v : PyVal) : PyType :=
  match v with
  | VNone => TNoneType
  | VBool _ => TBool
  | VInt _ => TInt
  | VStr _ => TStr
  | VList _ => TList
  | VTuple _ => TTuple
  | VDict _ => TDict
  | VKeyValuePair _ _ _ => TKeyValuePair
  | VObj c _ => c
  end.

(** [isinstance(v, (list, tuple))] *)
Definition is_list_or_tuple (v : PyVal) : bool :=
  match v with
  | VList _ | VTuple _ => true
  | _ => false
  end.

(** [isinstance(v, KeyValuePair)] *)
Definition is_KeyValuePair (v : PyVal) : bool :=
  match v with
  | VKeyValuePair _ _ _ => true
  | _ => false
  end.

(** Truth value of [v] in a condition. *)
Definition py_truthy (v : PyVal) : bool :=
  match v with
  | VNone => false
  | VBool b => b
  | VInt z => negb (z =? 0)
  | VStr s => negb (String.eqb s "")
  | VList l => negb (Nat.eqb (List.length l) 0)
  | VTuple l => negb (Nat.eqb (List.length l) 0)
  | VDict d => negb (Nat.eqb (List.length d) 0)
  | VKeyValuePair _ _ _ => true
  | VObj _ _ => true
  end.

(** Whether [hash(v)] succeeds. *)
Fixpoint py_hashable (v : PyVal) : bool :=
  match v with
  | VList _ => false
  | VDict _ => false
  | VTuple l => forallb py_hashable l
  | _ => true
  end.

(** The number a [bool] or [int] stands for. *)
Definition num_of (v : PyVal) : option Z :=
  match v with
  | VBool b => Some (Z.b2z b)
  | VInt z => Some z
  | _ => None
  end.

(** Equality of two hashable values as a dictionary lookup sees it
    ([True] and [1] are the same key; objects compare by identity). *)
Fixpoint key_eqb (a b : PyVal) {struct a} : bool :=
  match a, b with
  | VNone, VNone => true
  | VBool x, VBool y => Z.b2z x =? Z.b2z y
  | VBool x, VInt y => Z.b2z x =? y
  | VInt x, VBool y => x =? Z.b2z y
  | VInt x, VInt y => x =? y
  | VStr x, VStr y => String.eqb x y
  | VTuple l1, VTuple l2 =>
      (fix go (l1 l2 : list PyVal) {struct l1} : bool :=
         match l1, l2 with
         | [], [] => true
         | x :: xs, y :: ys => key_eqb x y && go xs ys
         | _, _ => false
         end) l1 l2
  | VKeyValuePair a1 _ _, VKeyValuePair a2 _ _ => Nat.eqb a1 a2
  | VObj c1 a1, VObj c2 a2 => PyType_eqb c1 c2 && Nat.eqb a1 a2
  | _, _ => false
  end.

(** A Python [dict], in insertion order. *)
Definition PyDict : Type := list (PyVal * PyVal).

Fixpoint dict_find (d : PyDict) (k : PyVal) : option PyVal :=
  match d with
  | [] => None
  | (k', v) :: d' => if key_eqb k' k then Some v else dict_find d' k
  end.

(** [d[k]] *)
Definition dict_getitem (d : PyDict) (k : PyVal) : Result PyVal :=
  if py_hashable k then
    match dict_find d k with
    | Some v => Ok v
    | None => Raise KeyError
    end
  else Raise TypeError.

Fixpoint dict_put (d : PyDict) (k v : PyVal) : PyDict :=
  match d with
  | [] => [(k, v)]
  | (k', v') :: d' =>
      if key_eqb k' k then (k', v) :: d' else (k', v') :: dict_put d' k v
  end.

(** [d[k] = v] *)
Definition dict_setitem (d : PyDict) (k v : PyVal) : Result PyDict :=
  if py_hashable k then Ok (dict_put d k v) else Raise TypeError.

(** The one-character strings of [s]. *)
Fixpoint str_chars (s : string) : list PyVal :=
  match s with
  | EmptyString => []
  | String c s' => VStr (String c EmptyString) :: str_chars s'
  end.

(** [len(v)] *)
Definition py_len (v : PyVal) : Result Z :=
  match v with
  | VStr s => Ok (Z.of_nat (String.length s))
  | VList l => Ok (Z.of_nat (List.length l))
  | VTuple l => Ok (Z.of_nat (List.length l))
  | VDict d => Ok (Z.of_nat (List.length d))
  | _ => Raise TypeError
  end.

(** The items [for x in v] goes through. *)
Definition py_iter (v : PyVal) : Result (list PyVal) :=
  match v with
  | VStr s => Ok (str_chars s)
  | VList l => Ok l
  | VTuple l => Ok l
  | VDict d => Ok (map fst d)
  | _ => Raise TypeError
  end.

Definition seq_getitem (l : list PyVal) (i : Z) : Result PyVal :=
  let n := Z.of_nat (List.length l) in
  let j := if i <? 0 then i + n else i in
  if (0 <=? j) && (j <? n) then
    match nth_error l (Z.to_nat j) with
    | Some v => Ok v
    | None => Raise IndexError
    end
  else Raise IndexError.

(** [v[i]] for an integer [i]. *)
Definition py_getitem (v : PyVal) (i : Z) : Result PyVal :=
  match v with
  | VStr s => seq_getitem (str_chars s) i
  | VList l => seq_getitem l i
  | VTuple l => seq_getitem l i
  | VDict d => dict_getitem d (VInt i)
  | _ => Raise TypeError
  end.

(** Where a slice bound [i] falls in a sequence of length [n]. *)
Definition clamp_index (n : nat) (i : Z) : nat :=
  let m := Z.of_nat n in
  Z.to_nat (if i <? 0 then Z.max (i + m) 0 else Z.min i m).

Definition string_of_chars (l : list PyVal) : string :=
  fold_right
    (fun c acc => match c with VStr s => String.append s acc | _ => acc end)
    EmptyString l.

(** [v[:r]] *)
Definition py_slice_to (v : PyVal) (r : Z) : Result PyVal :=
  match v with
  | VList l => Ok (VList (firstn (clamp_index (List.length l) r) l))
  | VTuple l => Ok (VTuple (firstn (clamp_index (List.length l) r) l))
  | VStr s =>
      Ok (VStr (string_of_chars
                  (firstn (clamp_index (String.length s) r) (str_chars s))))
  | _ => Raise TypeError
  end.

(** [v[c:]] *)
Definition py_slice_from (v : PyVal) (c : Z) : Result PyVal :=
  match v with
  | VList l => Ok (VList (skipn (clamp_index (List.length l) c) l))
  | VTuple l => Ok (VTuple (skipn (clamp_index (List.length l) c) l))
  | VStr s =>
      Ok (VStr (string_of_chars
                  (skipn (clamp_index (String.length s) c) (str_chars s))))
  | _ => Raise TypeError
  end.

(** A grid as the pipelines carry it: a list of rows, each a list of cells. *)
Definition grid_val (g : list (list PyVal)) : PyVal := VList (map VList g).

(* ================================================================= *)
(** ** Options, converters and the registry *)

(** A key of the registry [accessors]: a class, or one of the sentinels the
    accessors register themselves under ([None] for [ValueAccessor], the
    string ['raw'] for [RawValueAccessor]). *)
Inductive RegKey : Type :=
| KeyType (t : PyType)
| KeyNone
| KeyStr (s : string).

Definition RegKey_eq_dec (a b : RegKey) : {a = b} + {a <> b}.
Proof.
  decide equality.
  - apply PyType_eq_dec.
  - apply string_dec.
Defined.

Definition RegKey_eqb (a b : RegKey) : bool :=
  if RegKey_eq_dec a b then true else false.

(** The value of the [types] option when it is present: the string ['all'],
    a list or tuple of keys, or any other single key. *)
Inductive TypesOption : Type :=
| TypesAll
| TypesSeq (ks : list RegKey)
| TypesOne (k : RegKey).

(** The option bag, one field per key the stages read; [None] is an absent
    key. *)
Record Options : Type := mkOptions {
  opt_expand : option PyVal;
  opt_skip_tl_cells : option (Z * Z);
  opt_ndim : option Z;
  opt_types : option TypesOption;
  opt_transpose : option PyVal
}.

(** [ObjectConverter.cache], the only store a converter of these files
    touches. *)
Definition Cache : Type := PyDict.

(** A computation of a converter: it may raise, and either way leaves a
    cache behind. *)
Definition Conv (A : Type) : Type := Cache -> Result A * Cache.

(** A [Converter] subclass, by its two class methods. *)
Record Converter : Type := mkConverter {
  read_value : PyVal -> Options -> Conv PyVal;
  write_value : PyVal -> Options -> Conv PyVal
}.

(** What a registry key is bound to: an accessor that is not a converter,
    or a converter. *)
Inductive AccessorClass : Type :=
| PlainAccessor (name : string)
| ConverterClass (c : Converter).

(** [accessors], in the order [keys()] lists it. *)
Definition Registry : Type := list (RegKey * AccessorClass).

(** [accessors.get(k, None)] *)
Fixpoint registry_get (acc : Registry) (k : RegKey) : option AccessorClass :=
  match acc with
  | [] => None
  | (k', a) :: acc' => if RegKey_eqb k' k then Some a else registry_get acc' k
  end.

Definition registry_keys (acc : Registry) : list RegKey := map fst acc.

(* ----------------------------------------------------------------- *)
(** *** object_conv.py *)

Module ObjectConverter.

(** [read_value]: a lookup in the cache; the [KeyError] of a miss is
    raised again as a [KeyError], anything else escapes as it is. *)
Definition read_value (value : PyVal) (options : Options) : Conv PyVal :=
  fun cache =>
    match dict_getitem cache value with
    | Ok v => (Ok v, cache)
    | Raise KeyError => (Raise KeyError, cache)
    | Raise e => (Raise e, cache)
    end.

Definition write_value (key_val : PyVal) (options : Options) : Conv PyVal :=
  fun cache =>
    match key_val with
    | VKeyValuePair _ key value =>
        match dict_setitem cache key value with
        | Ok cache' => (Ok key, cache')
        | Raise e => (Raise e, cache)
        end
    | _ => (Raise TypeError, cache)
    end.

Definition cls : Converter := mkConverter read_value write_value.

End ObjectConverter.

(* ----------------------------------------------------------------- *)
(** *** standard.py: DictConverter *)

(** [dict(rows)]: every item of [rows] must itself have exactly two items,
    the first of them hashable. *)
Fixpoint dict_of_rows (rows : list PyVal) (d : PyDict) : Result PyDict :=
  match rows with
  | [] => Ok d
  | r :: rows' =>
      kv <- py_iter r ;;
      match kv with
      | [k; v] => d' <- dict_setitem d k v ;; dict_of_rows rows' d'
      | _ => Raise ValueError
      end
  end.

(** [dict(v)] *)
Definition py_dict (v : PyVal) : Result PyVal :=
  match v with
  | VDict d => Ok (VDict d)
  | _ => rows <- py_iter v ;; d <- dict_of_rows rows [] ;; Ok (VDict d)
  end.

Module DictConverter.

Definition read_value (value : PyVal) (options : Options) : Conv PyVal :=
  fun cache =>
    let asserted :=
      if negb (py_truthy value) then Ok tt
      else
        first <- py_getitem value 0 ;;
        n <- py_len first ;;
        if n =? 2 then Ok tt else Raise AssertionError in
    (_ <- asserted ;; py_dict value, cache).

(** [list(value.items())]: the items are 2-tuples; anything that is not a
    mapping has no [items]. *)
Definition write_value (value : PyVal) (options : Options) : Conv PyVal :=
  fun cache =>
    match value with
    | VDict d => (Ok (VList (map (fun kv => VTuple [fst kv; snd kv]) d)), cache)
    | _ => (Raise AttributeError, cache)
    end.

Definition cls : Converter := mkConverter read_value write_value.

End DictConverter.

(* ================================================================= *)
(** ** The context, the range collaborator and the effects of a stage *)

(** [c.meta], a dictionary with string keys. *)
Definition Meta : Type := list (string * PyVal).

Fixpoint meta_get (m : Meta) (k : string) (default : PyVal) : PyVal :=
  match m with
  | [] => default
  | (k', v) :: m' => if String.eqb k' k then v else meta_get m' k default
  end.

Fixpoint meta_set (m : Meta) (k : string) (v : PyVal) : Meta :=
  match m with
  | [] => [(k, v)]
  | (k', v') :: m' =>
      if String.eqb k' k then (k', v) :: m' else (k', v') :: meta_set m' k v
  end.

(** A bound of [rng[rows, cols]] as the write stage uses it: [:n], [n:]
    or [:]. *)
Inductive SliceArg : Type :=
| SliceTo (stop : Z)
| SliceFrom (start : Z)
| SliceAll.

(** A call on a collaborator that changes the sheet, in the order made. *)
Inductive Event (Range : Type) : Type :=
| SetRawValue (rng : Range) (v : PyVal)
| ExpanderClear (expand : PyVal) (rng : Range) (skip : Z * Z) (vshape : Z * Z).

Arguments SetRawValue {Range} rng v.
Arguments ExpanderClear {Range} expand rng skip vshape.

(** The range, the expanders and the platform module are not part of the
    two source files; the stages use them through this interface.
    [expander_has_clear e] tells whether [expanders.get(e, e)] is an object
    with a [clear] method. *)
Class Collaborators (Range : Type) : Type := {
  range_truthy : Range -> bool;
  range_api : Range -> bool;
  range_resize : Range -> Z -> Z -> Range;
  range_getitem : Range -> SliceArg -> SliceArg -> Range;
  expander_has_clear : PyVal -> bool;
  prepare_xl_data_element : PyVal -> PyVal
}.

Section Effects.

Context {Range : Type} `{Collab : Collaborators Range}.

(** The context a pipeline runs on; an absent range is [None]. *)
Record Ctx : Type := mkCtx {
  ctx_range : option Range;
  ctx_value : PyVal;
  ctx_meta : Meta
}.

(** Everything a stage can change besides the context. *)
Record World : Type := mkWorld {
  cache : Cache;
  calls : list (Event Range)
}.

(** A stage's computation: it may raise, and either way leaves a world
    behind. *)
Definition Eff (A : Type) : Type := World -> Result A * World.

Definition ret {A : Type} (a : A) : Eff A := fun w => (Ok a, w).

Definition raise {A : Type} (e : Exn) : Eff A := fun w => (Raise e, w).

Definition bind {A B : Type} (m : Eff A) (k : A -> Eff B) : Eff B :=
  fun w =>
    match m w with
    | (Ok a, w') => k a w'
    | (Raise e, w') => (Raise e, w')
    end.

Definition lift {A : Type} (r : Result A) : Eff A := fun w => (r, w).

Definition emit (ev : Event Range) : Eff unit :=
  fun w => (Ok tt, mkWorld (cache w) (calls w ++ [ev])).

Definition with_cache {A : Type} (m : Conv A) : Eff A :=
  fun w => let (r, k) := m (cache w) in (r, mkWorld k (calls w)).

Definition Stage : Type := Ctx -> Eff Ctx.

(** [if c.range:] *)
Definition ctx_range_truthy (c : Ctx) : bool :=
  match ctx_range c with
  | Some rng => range_truthy rng
  | None => false
  end.

Definition truthy_opt (o : option PyVal) : bool :=
  match o with
  | Some v => py_truthy v
  | None => false
  end.

End Effects.

Arguments Ctx Range : clear implicits.
Arguments World Range : clear implicits.
Arguments Eff Range A : clear implicits.
Arguments Stage Range : clear implicits.

Notation "x <~ m ;; k" := (bind m (fun x => k))
  (at level 61, m at next level, right associativity).

(* ================================================================= *)
(** ** standard.py: the stages *)

Section Stages.

Context {Range : Type} `{Collab : Collaborators Range}.

(** The process-wide registry [accessors]. *)
Variable accessors : Registry.

(* --------------------------------------------------------------- *)
(** *** ClearExpandedRangeStage *)

(** [self.skip] after [__init__]. *)
Definition ClearExpandedRangeStage_skip (options : Options) : Z * Z :=
  match opt_skip_tl_cells options with
  | Some s => s
  | None => (0, 0)
  end.

Definition ClearExpandedRangeStage (options : Options) : Stage Range :=
  fun ctx =>
    match ctx_range ctx, opt_expand options with
    | Some rng, Some expand =>
        if range_truthy rng && py_truthy expand then
          _ <~ lift (if py_hashable expand then Ok tt else Raise TypeError) ;;
          vrows <~ lift (py_len (ctx_value ctx)) ;;
          vcols <~ lift (if vrows =? 0 then Ok 0
                         else first <- py_getitem (ctx_value ctx) 0 ;;
                              py_len first) ;;
          _ <~ lift (if expander_has_clear expand then Ok tt
                     else Raise AttributeError) ;;
          _ <~ emit (ExpanderClear expand rng
                       (ClearExpandedRangeStage_skip options) (vrows, vcols)) ;;
          ret ctx
        else ret ctx
    | _, _ => ret ctx
    end.

(* --------------------------------------------------------------- *)
(** *** WriteValueToRangeStage *)

Definition WriteValueToRangeStage_write_value
    (rng : Range) (value : PyVal) (scalar : bool) : Eff Range unit :=
  if range_api rng && py_truthy value then
    if scalar then
      row <~ lift (py_getitem value 0) ;;
      cell <~ lift (py_getitem row 0) ;;
      emit (SetRawValue rng cell)
    else
      nrows <~ lift (py_len value) ;;
      row <~ lift (py_getitem value 0) ;;
      ncols <~ lift (py_len row) ;;
      emit (SetRawValue (range_resize rng nrows ncols) value)
  else ret tt.

Definition WriteValueToRangeStage (options : Options) (raw : bool) : Stage Range :=
  fun ctx =>
    match ctx_range ctx with
    | None => ret ctx
    | Some rng =>
        if range_truthy rng && py_truthy (ctx_value ctx) then
          if raw then
            _ <~ emit (SetRawValue rng (ctx_value ctx)) ;;
            ret ctx
          else
            let scalar := py_truthy (meta_get (ctx_meta ctx) "scalar" (VBool false)) in
            rng' <~ (if negb scalar then
                       nrows <~ lift (py_len (ctx_value ctx)) ;;
                       row <~ lift (py_getitem (ctx_value ctx) 0) ;;
                       ncols <~ lift (py_len row) ;;
                       ret (range_resize rng nrows ncols)
                     else ret rng) ;;
            let ctx' := mkCtx (Some rng') (ctx_value ctx) (ctx_meta ctx) in
            match opt_skip_tl_cells options with
            | Some (r, c) =>
                if scalar then
                  _ <~ WriteValueToRangeStage_write_value
                         (range_getitem rng' (SliceTo r) (SliceFrom c))
                         (ctx_value ctx) true ;;
                  _ <~ WriteValueToRangeStage_write_value
                         (range_getitem rng' (SliceFrom r) SliceAll)
                         (ctx_value ctx) true ;;
                  ret ctx'
                else
                  top <~ lift (head <- py_slice_to (ctx_value ctx) r ;;
                               rows <- py_iter head ;;
                               xs <- mapR (fun x => py_slice_from x c) rows ;;
                               Ok (VList xs)) ;;
                  _ <~ WriteValueToRangeStage_write_value
                         (range_getitem rng' (SliceTo r) (SliceFrom c)) top false ;;
                  rest <~ lift (py_slice_from (ctx_value ctx) r) ;;
                  _ <~ WriteValueToRangeStage_write_value
                         (range_getitem rng' (SliceFrom r) SliceAll) rest false ;;
                  ret ctx'
            | None =>
                _ <~ WriteValueToRangeStage_write_value rng' (ctx_value ctx) scalar ;;
                ret ctx'
            end
        else ret ctx
    end.

(* --------------------------------------------------------------- *)
(** *** CleanDataForWriteStage *)

Definition CleanDataForWriteStage : Stage Range :=
  fun c =>
    rows <~ lift (py_iter (ctx_value c)) ;;
    value <~ lift (mapR (fun y => xs <- py_iter y ;;
                                  Ok (VList (map prepare_xl_data_element xs)))
                        rows) ;;
    ret (mkCtx (ctx_range c) (VList value) (ctx_meta c)).

(* --------------------------------------------------------------- *)
(** *** ConvertDataStage and its two subclasses *)

(** The two abstract methods a subclass supplies.  [_resolve_converters]
    yields the candidates in the order the loop draws them. *)
Record ConvertDataStage : Type := mkConvertDataStage {
  _convert : Converter -> PyVal -> Conv PyVal;
  _resolve_converters : PyVal -> Result (list Converter)
}.

(** The innermost loop of [__call__] for one cell [x]: the [try] around
    each candidate, the [break] on success and the [else] branch. *)
Fixpoint try_converters (st : ConvertDataStage) (cs : list Converter)
    (x : PyVal) (k : Cache) : PyVal * Cache :=
  match cs with
  | [] => (x, k)
  | converter :: cs' =>
      match _convert st converter x k with
      | (Ok v, k') => (v, k')
      | (Raise _, k') => try_converters st cs' x k'
      end
  end.

(** [for x in y]: [done] are the finished rows of the local [value],
    [cur] is [value[i]]; the candidates are resolved from [value]. *)
Fixpoint convert_cells (st : ConvertDataStage) (done : list (list PyVal))
    (cur : list PyVal) (y : list PyVal) : Conv (list PyVal) :=
  fun k =>
    match y with
    | [] => (Ok cur, k)
    | x :: y' =>
        match _resolve_converters st (grid_val (done ++ [cur])) with
        | Raise e => (Raise e, k)
        | Ok cs =>
            let (v, k') := try_converters st cs x k in
            convert_cells st done (cur ++ [v]) y' k'
        end
    end.

(** [for i, y in enumerate(c.value)] *)
Fixpoint convert_rows (st : ConvertDataStage) (done : list (list PyVal))
    (rows : list PyVal) : Conv (list (list PyVal)) :=
  fun k =>
    match rows with
    | [] => (Ok done, k)
    | y :: rows' =>
        match py_iter y with
        | Raise e => (Raise e, k)
        | Ok cells =>
            match convert_cells st done [] cells k with
            | (Ok row, k') => convert_rows st (done ++ [row]) rows' k'
            | (Raise e, k') => (Raise e, k')
            end
        end
    end.

Definition ConvertDataStage_call (st : ConvertDataStage) : Stage Range :=
  fun c =>
    rows <~ lift (py_iter (ctx_value c)) ;;
    value <~ with_cache (convert_rows st [] rows) ;;
    ret (mkCtx (ctx_range c) (grid_val value) (ctx_meta c)).

(** [len(x.mro())] for a key of the registry: only a class has [mro]. *)
Definition mro_len (x : RegKey) : Result nat :=
  match x with
  | KeyType t => Ok (List.length (mro t))
  | KeyNone => Raise AttributeError
  | KeyStr _ => Raise AttributeError
  end.

Fixpoint insert_by_depth (x : nat * RegKey) (l : list (nat * RegKey))
    : list (nat * RegKey) :=
  match l with
  | [] => [x]
  | y :: l' =>
      if Nat.ltb (fst x) (fst y) then y :: insert_by_depth x l' else x :: y :: l'
  end.

(** [sorted(types, key=lambda x: len(x.mro()), reverse=True)]: the keys
    are computed first, the sort is stable. *)
Definition _sort_types_by_inheritance (types : list RegKey)
    : Result (list RegKey) :=
  keyed <- mapR (fun x => n <- mro_len x ;; Ok (n, x)) types ;;
  Ok (map snd (fold_right insert_by_depth [] keyed)).

(** [(accessors[cls] for cls in types
      if cls in accessors and issubclass(accessors[cls], Converter))] *)
Fixpoint converters_of (types : list RegKey) : list Converter :=
  match types with
  | [] => []
  | cls :: types' =>
      match registry_get accessors cls with
      | Some (ConverterClass conv) => conv :: converters_of types'
      | _ => converters_of types'
      end
  end.

Definition ConvertDataFromReadStage_resolve_converters (options : Options)
    (value : PyVal) : Result (list Converter) :=
  match opt_types options with
  | None => Ok []
  | Some t =>
      types <- match t with
               | TypesAll => _sort_types_by_inheritance (registry_keys accessors)
               | TypesSeq ks => Ok ks
               | TypesOne k => Ok [k]
               end ;;
      Ok (converters_of types)
  end.

Definition ConvertDataFromReadStage (options : Options) : ConvertDataStage :=
  mkConvertDataStage
    (fun converter value => read_value converter value options)
    (ConvertDataFromReadStage_resolve_converters options).

Definition ConvertDataForWriteStage_resolve_converters (options : Options)
    (value : PyVal) : Result (list Converter) :=
  match registry_get accessors (KeyType (type_of value)) with
  | Some (ConverterClass converter) => Ok [converter]
  | _ => Ok []
  end.

Definition ConvertDataForWriteStage (options : Options) : ConvertDataStage :=
  mkConvertDataStage
    (fun converter value => write_value converter value options)
    (ConvertDataForWriteStage_resolve_converters options).

(* --------------------------------------------------------------- *)
(** *** AdjustDimensionsStage *)

Definition AdjustDimensionsStage (options : Options) : Stage Range :=
  fun c =>
    let value := ctx_value c in
    let set v := ret (mkCtx (ctx_range c) v (ctx_meta c)) in
    let first_of_each :=
      rows <- py_iter value ;;
      xs <- mapR (fun x => py_getitem x 0) rows ;;
      Ok (VList xs) in
    match opt_ndim options with
    | None =>
        n <~ lift (py_len value) ;;
        if n =? 1 then
          row <~ lift (py_getitem value 0) ;;
          m <~ lift (py_len row) ;;
          if m =? 1 then cell <~ lift (py_getitem row 0) ;; set cell
          else set row
        else
          row <~ lift (py_getitem value 0) ;;
          m <~ lift (py_len row) ;;
          if m =? 1 then v <~ lift first_of_each ;; set v
          else set value
    | Some ndim =>
        if ndim =? 1 then
          n <~ lift (py_len value) ;;
          if n =? 1 then row <~ lift (py_getitem value 0) ;; set row
          else
            row <~ lift (py_getitem value 0) ;;
            m <~ lift (py_len row) ;;
            if m =? 1 then v <~ lift first_of_each ;; set v
            else raise PlainException
        else if negb (ndim =? 2) then raise ValueError
        else ret c
    end.

(* --------------------------------------------------------------- *)
(** *** Ensure2DStage *)

Definition Ensure2DStage : Stage Range :=
  fun c =>
    let value := ctx_value c in
    if is_list_or_tuple value then
      n <~ lift (py_len value) ;;
      if 0 <? n then
        first <~ lift (py_getitem value 0) ;;
        if negb (is_list_or_tuple first) then
          ret (mkCtx (ctx_range c) (VList [value]) (ctx_meta c))
        else ret c
      else ret c
    else
      ret (mkCtx (ctx_range c) (VList [VList [value]])
             (meta_set (ctx_meta c) "scalar" (VBool true))).

(* --------------------------------------------------------------- *)
(** *** TransposeStage *)

(** [range(n)] *)
Definition py_range (n : Z) : list Z := map Z.of_nat (seq 0 (Z.to_nat n)).

Definition TransposeStage : Stage Range :=
  fun c =>
    let value := ctx_value c in
    ncols <~ lift (if py_truthy value
                   then first <- py_getitem value 0 ;; py_len first
                   else Ok 0) ;;
    cols <~ lift (mapR (fun i =>
                          es <- py_iter value ;;
                          col <- mapR (fun e => py_getitem e i) es ;;
                          Ok (VList col))
                       (py_range ncols)) ;;
    ret (mkCtx (ctx_range c) (VList cols) (ctx_meta c)).

(* --------------------------------------------------------------- *)
(** *** Pipeline and ValueAccessor.writer *)

(** Modelled from the spec: the [Pipeline] class is imported from the
    package and is not in the two source files.  A pipeline is an ordered
    list of stages; [prepend_stage] inserts at index 0 and [append_stage]
    at the end, each only when [only_if] holds at assembly time; running
    it applies the stages in list order and stops at the first one that
    raises. *)
Definition Pipeline : Type := list (Stage Range).

Definition prepend_stage (p : Pipeline) (stage : Stage Range) (only_if : bool)
    : Pipeline :=
  if only_if then stage :: p else p.

Definition append_stage (p : Pipeline) (stage : Stage Range) (only_if : bool)
    : Pipeline :=
  if only_if then (p ++ [stage])%list else p.

Fixpoint Pipeline_call (p : Pipeline) (c : Ctx Range) : Eff Range (Ctx Range) :=
  match p with
  | [] => ret c
  | stage :: p' => c' <~ stage c ;; Pipeline_call p' c'
  end.

Definition ValueAccessor_writer (options : Options) : Pipeline :=
  let p0 := [] in
  let p1 := prepend_stage p0 (WriteValueToRangeStage options false) true in
  let p2 := prepend_stage p1 (ClearExpandedRangeStage options)
              (truthy_opt (opt_expand options)) in
  let p3 := prepend_stage p2 CleanDataForWriteStage true in
  let p4 := prepend_stage p3
              (ConvertDataStage_call (ConvertDataForWriteStage options)) true in
  let p5 := prepend_stage p4 TransposeStage
              (truthy_opt (opt_transpose options)) in
  prepend_stage p5 Ensure2DStage true.

End Stages.

Arguments mkCtx {Range} ctx_range ctx_value ctx_meta.
Arguments mkWorld {Range} cache calls.

(* ================================================================= *)
(** ** Concrete collaborators and registry *)

(** A rectangular block of cells given by its top-left corner and its
    shape: the simplest realisation of the collaborator interface, used to
    run the stages on concrete inputs. *)
Record CellRange : Type := mkCellRange {
  cr_row : Z;
  cr_col : Z;
  cr_nrows : Z;
  cr_ncols : Z
}.

(** Start and length of a slice of an axis of [n] cells. *)
Definition slice_bounds (n : Z) (s : SliceArg) : Z * Z :=
  let len := Z.to_nat n in
  match s with
  | SliceTo stop => (0, Z.of_nat (clamp_index len stop))
  | SliceFrom start =>
      (Z.of_nat (clamp_index len start), n - Z.of_nat (clamp_index len start))
  | SliceAll => (0, n)
  end.

Definition CellRange_getitem (r : CellRange) (rs cs : SliceArg) : CellRange :=
  let (r0, nr) := slice_bounds (cr_nrows r) rs in
  let (c0, nc) := slice_bounds (cr_ncols r) cs in
  mkCellRange (cr_row r + r0) (cr_col r + c0) nr nc.

#[export] Instance CellRange_collaborators : Collaborators CellRange := {
  range_truthy := fun _ => true;
  range_api := fun r => (0 <? cr_nrows r) && (0 <? cr_ncols r);
  range_resize := fun r n m => mkCellRange (cr_row r) (cr_col r) n m;
  range_getitem := CellRange_getitem;
  expander_has_clear := fun e =>
    match e with
    | VStr s => String.eqb s "table" || String.eqb s "down" || String.eqb s "right"
    | _ => false
    end;
  prepare_xl_data_element := fun x => x
}.

(** The registry once both source files are imported: [standard.py]
    registers [Range], ['raw'], [None] and [dict], [object_conv.py]
    registers [object]. *)
Definition standard_accessors : Registry :=
  [ (KeyType TRange, PlainAccessor "RangeAccessor");
    (KeyStr "raw", PlainAccessor "RawValueAccessor");
    (KeyNone, PlainAccessor "ValueAccessor");
    (KeyType TDict, ConverterClass DictConverter.cls);
    (KeyType TObject, ConverterClass ObjectConverter.cls) ].

(** No option given. *)
Definition no_options : Options := mkOptions None None None None None.

(** Only [types='all'] given. *)
Definition types_all_options : Options :=
  mkOptions None None None (Some TypesAll) None.

(** Only [expand='table'] given. *)
Definition expand_table_options : Options :=
  mkOptions (Some (VStr "table")) None None None None.

Definition empty_world : World CellRange := mkWorld [] [].

(** A registry whose keys are all classes. *)
Definition class_accessors : Registry :=
  [ (KeyType TObject, ConverterClass ObjectConverter.cls);
    (KeyType TDict, ConverterClass DictConverter.cls) ].

(** [types=(dict, object)] given, nothing else. *)
Definition dict_then_object_options : Options :=
  mkOptions None None None (Some (TypesSeq [KeyType TDict; KeyType TObject])) None.

(** A cache holding one object under the handle ["h1"]. *)
Definition one_object_world : World CellRange :=
  mkWorld [(VStr "h1", VObj TObject 7)] [].

(** The mapping [{"a": 1, "b": 2}]. *)
Definition sample_dict : PyDict := [(VStr "a", VInt 1); (VStr "b", VInt 2)].

(* ================================================================= *)
(** ** Vocabulary of the specification *)

(** An [m]-by-[n] grid. *)
Definition is_shape (m n : nat) (g : list (list PyVal)) : Prop :=
  List.length g = m /\ Forall (fun row => List.length row = n) g.

(** The grid with rows and columns swapped: row [i] of it holds item [i] of
    every row of [g], for [i] below the width [n]. *)
Definition transpose_grid (n : nat) (g : list (list PyVal)) : list (list PyVal) :=
  map (fun i => map (fun row => nth i row VNone) g) (seq 0 n).

(** A sequence given as a tuple or as a list. *)
Definition seq_val (tuple : bool) (l : list PyVal) : PyVal :=
  if tuple then VTuple l else VList l.

(** The grid [g] laid out with tuples or lists, for the grid itself
    ([outer]) and for its rows ([rows]); [grid_of false false] is
    [grid_val]. *)
Definition grid_of (outer rows : bool) (g : list (list PyVal)) : PyVal :=
  seq_val outer (map (seq_val rows) g).

(** [c] with its value replaced. *)
Definition set_value {Range : Type} (c : Ctx Range) (v : PyVal) : Ctx Range :=
  mkCtx (ctx_range c) v (ctx_meta c).

(** A relation on single items run through a list, the cache left by one
    item being the cache the next item starts from. *)
Inductive threaded {A B : Type} (R : A -> Cache -> B -> Cache -> Prop)
    : list A -> Cache -> list B -> Cache -> Prop :=
| threaded_nil : forall k, threaded R [] k [] k
| threaded_cons : forall a l k b k1 bs k2,
    R a k b k1 -> threaded R l k1 bs k2 -> threaded R (a :: l) k (b :: bs) k2.

(** The read policy for one cell, in the words of the specification: with no
    candidate left the raw value is kept; a candidate whose [read_value]
    returns gives the converted value; a candidate whose [read_value] raises
    hands over to the next one. *)
Inductive first_success (options : Options)
    : list Converter -> PyVal -> Cache -> PyVal -> Cache -> Prop :=
| fs_keep_raw : forall x k, first_success options [] x k x k
| fs_converted : forall c cs x k v k',
    read_value c x options k = (Ok v, k') ->
    first_success options (c :: cs) x k v k'
| fs_try_next : forall c cs x k e k1 v k2,
    read_value c x options k = (Raise e, k1) ->
    first_success options cs x k1 v k2 ->
    first_success options (c :: cs) x k v k2.

Definition is_clear {Range : Type} (ev : Event Range) : Prop :=
  match ev with
  | ExpanderClear _ _ _ _ => True
  | SetRawValue _ _ => False
  end.

Definition is_write {Range : Type} (ev : Event Range) : Prop :=
  match ev with
  | SetRawValue _ _ => True
  | ExpanderClear _ _ _ _ => False
  end.

(** The order the depth sort puts keyed entries in: no entry is followed by
    a deeper one. *)
Definition deeper_first (a b : nat * RegKey) : Prop := (fst b <= fst a)%nat.

(** What the loop of [ConvertDataStage] makes of one cell, as a relation. *)
Definition via_try (st : ConvertDataStage) (cs : list Converter)
    (x : PyVal) (k : Cache) (v : PyVal) (k' : Cache) : Prop :=
  try_converters st cs x k = (v, k').

(** The computation [m] adds calls to the log, all of them satisfying [P],
    and removes none. *)
Definition emits_only {Range A : Type} (P : Event Range -> Prop)
    (m : Eff Range A) : Prop :=
  forall w, exists evs,
    calls (snd (m w)) = (calls w ++ evs)%list /\ Forall P evs.

(** Whenever the computation [m] returns, what it returns satisfies [Q]. *)
Definition returns_with {Range A : Type} (Q : A -> Prop) (m : Eff Range A) : Prop :=
  forall w a w', m w = (Ok a, w') -> Q a.

(** A stage that makes no call on the collaborators and hands on the range
    it was given. *)
Definition quiet_stage {Range : Type} (s : Stage Range) : Prop :=
  forall c,
    emits_only (fun _ => False) (s c)
    /\ returns_with (fun c' => ctx_range c' = ctx_range c) (s c).

(** Every clearing call comes after every write of the value. *)
Definition clears_follow_writes {Range : Type} (evs : list (Event Range)) : Prop :=
  exists wr cl, evs = (wr ++ cl)%list /\ Forall is_write wr /\ Forall is_clear cl.

(** Every clearing call comes before every write of the value. *)
Definition clears_precede_writes {Range : Type} (evs : list (Event Range)) : Prop :=
  exists cl wr, evs = (cl ++ wr)%list /\ Forall is_clear cl /\ Forall is_write wr.

(** A list or tuple all of whose items are lists or tuples (a sequence of
    rows). *)
Definition is_nested_sequence (v : PyVal) : Prop :=
  match v with
  | VList l | VTuple l => forallb is_list_or_tuple l = true
  | _ => False
  end.

(** A list or tuple none of whose items is a list or tuple. *)
Definition is_flat_sequence (v : PyVal) : Prop :=
  match v with
  | VList l | VTuple l => forallb (fun x => negb (is_list_or_tuple x)) l = true
  | _ => False
  end.

(** The rows a mapping is laid out in: one (key, value) pair per item, as
    tuples (what [items()] yields) or as lists (what a grid holds). *)
Definition pair_rows (tuples : bool) (d : PyDict) : list PyVal :=
  map (fun kv => if tuples then VTuple [fst kv; snd kv] else VList [fst kv; snd kv]) d.

(** A dictionary value as Python builds them: hashable keys, no key equal
    to a later one. *)
Fixpoint dict_wf (d : PyDict) : bool :=
  match d with
  | [] => true
  | (k, _) :: d' =>
      py_hashable k
      && forallb (fun kv => negb (key_eqb k (fst kv))) d'
      && dict_wf d'
  end.

(* ================================================================= *)
(** ** What the specification says, as propositions over the stages *)

Section Statements.

Context {Range : Type} `{Collab : Collaborators Range}.

(** Ensure2D as the specification words it, with [wrapped] the values it
    says are wrapped as a single row. *)
Definition Ensure2D_spec (wrapped : PyVal -> Prop)
    (c : Ctx Range) (w : World Range) : Prop :=
  let v := ctx_value c in
  (is_nested_sequence v -> Ensure2DStage c w = (Ok c, w))
  /\ (wrapped v -> Ensure2DStage c w = (Ok (set_value c (VList [v])), w))
  /\ (is_list_or_tuple v = false ->
      Ensure2DStage c w
      = (Ok (mkCtx (ctx_range c) (VList [VList [v]])
               (meta_set (ctx_meta c) "scalar" (VBool true))), w))
  /\ (is_list_or_tuple v = true ->
      forall c' w', Ensure2DStage c w = (Ok c', w') -> ctx_meta c' = ctx_meta c).

Definition nonempty_flat_sequence (v : PyVal) : Prop :=
  is_flat_sequence v /\ py_truthy v = true.

Definition first_row (g : list (list PyVal)) : list PyVal := nth 0%nat g [].

Definition first_column (g : list (list PyVal)) : list PyVal :=
  map (fun row => nth 0%nat row VNone) g.

(** AdjustDimensions on an [m]-by-[n] grid [g], case by case as the
    specification lists them. *)
Definition AdjustDimensions_spec (m n : nat) (g : list (list PyVal))
    (options : Options) (c : Ctx Range) (w : World Range) : Prop :=
  let out := AdjustDimensionsStage options (set_value c (grid_val g)) w in
  let gives v := out = (Ok (set_value c v), w) in
  match opt_ndim options with
  | None =>
      (m = 1%nat /\ n = 1%nat -> gives (nth 0%nat (first_row g) VNone))
      /\ (m = 1%nat /\ n <> 1%nat -> gives (VList (first_row g)))
      /\ (m <> 1%nat /\ n = 1%nat -> gives (VList (first_column g)))
      /\ (m <> 1%nat /\ n <> 1%nat -> gives (grid_val g))
  | Some ndim =>
      if ndim =? 1 then
        (m = 1%nat -> gives (VList (first_row g)))
        /\ (m <> 1%nat /\ n = 1%nat -> gives (VList (first_column g)))
        /\ ((1 < m)%nat /\ (1 < n)%nat -> out = (Raise PlainException, w))
      else if ndim =? 2 then gives (grid_val g)
      else out = (Raise ValueError, w)
  end.

Definition transpose_twice (c : Ctx Range) : Eff Range (Ctx Range) :=
  c1 <~ TransposeStage c ;; TransposeStage c1.

End Statements.

(* ================================================================= *)
(** ** Vocabulary for the stages taken together *)

(** The test [Ensure2DStage] makes for "already two-dimensional": a list or
    tuple that is empty or whose first item is a list or tuple. *)
Definition looks_2d (v : PyVal) : bool :=
  match v with
  | VList [] | VTuple [] => true
  | VList (x :: _) | VTuple (x :: _) => is_list_or_tuple x
  | _ => false
  end.

(** [Ensure2DStage] followed by [AdjustDimensionsStage], the two ends of a
    read. *)
Definition ensure_then_adjust {Range : Type} (options : Options)
    (c : Ctx Range) : Eff Range (Ctx Range) :=
  c1 <~ Ensure2DStage c ;; AdjustDimensionsStage options c1.

(** Whether the key [k] is a class whose method-resolution order has [d]
    entries. *)
Definition has_depth (d : nat) (k : RegKey) : bool :=
  match mro_len k with
  | Ok n => Nat.eqb n d
  | Raise _ => false
  end.

Section WriteVocabulary.

Context {Range : Type} `{Collab : Collaborators Range}.

(** The world [w] with the calls [evs] added to its log. *)
Definition after_calls (w : World Range) (evs : list (Event Range)) : World Range :=
  mkWorld (cache w) (calls w ++ evs).

(** The call [_write_value(rng, grid, False)] makes: none on a range
    without cells or for a grid without rows, else one assignment of the
    grid to the range resized to the grid's shape. *)
Definition grid_write_calls (rng : Range) (g : list (list PyVal))
    : list (Event Range) :=
  match g with
  | [] => []
  | row :: _ =>
      if range_api rng
      then [SetRawValue
              (range_resize rng (Z.of_nat (List.length g)) (Z.of_nat (List.length row)))
              (grid_val g)]
      else []
  end.

(** The call [_write_value(rng, value, True)] makes for the cell [cell] of a
    scalar. *)
Definition scalar_write_calls (rng : Range) (cell : PyVal) : list (Event Range) :=
  if range_api rng then [SetRawValue rng cell] else [].

(** [[x[c:] for x in grid[:r]]]: the first [r] rows, each without its first
    [c] cells. *)
Definition skip_top (r c : Z) (g : list (list PyVal)) : list (list PyVal) :=
  map (fun x => skipn (clamp_index (List.length x) c) x)
      (firstn (clamp_index (List.length g) r) g).

(** [grid[r:]]: the rows from row [r] on. *)
Definition skip_rest (r : Z) (g : list (list PyVal)) : list (list PyVal) :=
  skipn (clamp_index (List.length g) r) g.

End WriteVocabulary.

(* ================================================================= *)
(** ** Properties *)

(* ----------------------------------------------------------------- *)
(** *** Dictionaries *)

Lemma PyType_eqb_refl : forall t, PyType_eqb t t = true.
Proof.
  intros t. unfold PyType_eqb. destruct (PyType_eq_dec t t); congruence.
Qed.

Lemma key_eqb_refl : forall v, py_hashable v = true -> key_eqb v v = true.
Proof.
  fix IH 1. intros v. destruct v; simpl; intros Hh;
    try reflexivity; try discriminate.
  - apply Z.eqb_refl.
  - apply Z.eqb_refl.
  - apply String.eqb_refl.
  - revert Hh. induction l as [|x xs IHxs]; simpl; intros Hh.
    + reflexivity.
    + apply andb_true_iff in Hh. destruct Hh as [Hx Hxs].
      rewrite (IH x Hx). simpl. apply IHxs. exact Hxs.
  - apply Nat.eqb_refl.
  - rewrite PyType_eqb_refl, Nat.eqb_refl. reflexivity.
Qed.

Lemma dict_find_put_same : forall d k v,
  py_hashable k = true -> dict_find (dict_put d k v) k = Some v.
Proof.
  induction d as [|[k' v'] d IHd]; intros k v Hk; simpl.
  - rewrite (key_eqb_refl k Hk). reflexivity.
  - destruct (key_eqb k' k) eqn:E; simpl; rewrite E.
    + reflexivity.
    + apply IHd. exact Hk.
Qed.


(* ----------------------------------------------------------------- *)
(** *** The loop of ConvertDataStage *)

Section ConvertLoop.

Variable st : ConvertDataStage.
Variable cs : list Converter.

(** The candidates do not depend on the rows converted so far. *)
Hypothesis resolve_const :
  forall done cur, _resolve_converters st (grid_val (done ++ [cur])) = Ok cs.

Lemma convert_cells_const : forall y done cur k,
  exists vs k',
    convert_cells st done cur y k = (Ok (cur ++ vs)%list, k')
    /\ threaded (via_try st cs) y k vs k'.
Proof.
  induction y as [|x y IHy]; intros done cur k; simpl.
  - exists [], k. rewrite app_nil_r. split; [reflexivity | constructor].
  - rewrite resolve_const.
    destruct (try_converters st cs x k) as [v k1] eqn:Etry.
    destruct (IHy done (cur ++ [v])%list k1) as (vs & k2 & Hrun & Hth).
    exists (v :: vs), k2. split.
    + rewrite Hrun. rewrite <- app_assoc. reflexivity.
    + econstructor; [exact Etry | exact Hth].
Qed.

Lemma convert_rows_const : forall g done k,
  exists g' k',
    convert_rows st done (map VList g) k = (Ok (done ++ g')%list, k')
    /\ threaded (threaded (via_try st cs)) g k g' k'.
Proof.
  induction g as [|y g IHg]; intros done k; simpl.
  - exists [], k. rewrite app_nil_r. split; [reflexivity | constructor].
  - destruct (convert_cells_const y done [] k) as (vs & k1 & Hrun & Hth).
    simpl in Hrun. rewrite Hrun.
    destruct (IHg (done ++ [vs])%list k1) as (g' & k2 & Hrows & Hth').
    exists (vs :: g'), k2. split.
    + rewrite Hrows. rewrite <- app_assoc. reflexivity.
    + econstructor; [exact Hth | exact Hth'].
Qed.

End ConvertLoop.

Lemma threaded_impl : forall (A B : Type)
    (R R' : A -> Cache -> B -> Cache -> Prop),
  (forall a k b k', R a k b k' -> R' a k b k') ->
  forall l k bs k', threaded R l k bs k' -> threaded R' l k bs k'.
Proof.
  intros A B R R' Himp l k bs k' H.
  induction H; econstructor; eauto.
Qed.

Lemma threaded_identity : forall (A : Type) (R : A -> Cache -> A -> Cache -> Prop),
  (forall a k b k', R a k b k' -> b = a /\ k' = k) ->
  forall l k bs k', threaded R l k bs k' -> bs = l /\ k' = k.
Proof.
  intros A R Hid l k bs k' H.
  induction H as [|a l k b k1 bs k2 Hab Hrest [IH1 IH2]].
  - split; reflexivity.
  - destruct (Hid _ _ _ _ Hab) as [-> ->]. subst. split; reflexivity.
Qed.

Lemma try_converters_first_success : forall accessors options cs x k v k',
  try_converters (ConvertDataFromReadStage accessors options) cs x k = (v, k') ->
  first_success options cs x k v k'.
Proof.
  intros accessors options cs.
  induction cs as [|c cs IHcs]; intros x k v k' H; simpl in H.
  - inversion H; subst. constructor.
  - destruct (read_value c x options k) as [[v1|e] k1] eqn:Eread.
    + inversion H; subst. apply fs_converted. exact Eread.
    + eapply fs_try_next; [exact Eread | apply IHcs; exact H].
Qed.

(** The write stage resolves its candidates from the rows converted so
    far, which are a list whatever the cell is. *)
Lemma write_resolve_is_list_lookup : forall accessors options done cur,
  _resolve_converters (ConvertDataForWriteStage accessors options)
    (grid_val (done ++ [cur]))
  = ConvertDataForWriteStage_resolve_converters accessors options (VList []).
Proof.
  intros. reflexivity.
Qed.

(** With no converter registered for [list], the write stage returns every
    grid as it came, whatever is registered for the types of its cells. *)
Lemma write_stage_without_list_converter :
  forall (Range : Type) accessors options (c : Ctx Range) g w,
    ctx_value c = grid_val g ->
    ConvertDataForWriteStage_resolve_converters accessors options (VList []) = Ok [] ->
    ConvertDataStage_call (ConvertDataForWriteStage accessors options) c w
    = (Ok c, w).
Proof.
  intros Range accessors options c g w Hv Hres.
  unfold ConvertDataStage_call, bind, lift, with_cache, ret.
  rewrite Hv. simpl.
  destruct (@convert_rows_const (ConvertDataForWriteStage accessors options)
              [] (fun done cur => Hres) g [] (cache w))
    as (g' & k' & Hrun & Hth).
  rewrite Hrun. simpl.
  apply threaded_identity in Hth.
  - destruct Hth as [-> ->]. destruct c, w; simpl in *. subst. reflexivity.
  - intros a k b k1 H. apply threaded_identity in H; [exact H|].
    intros x k2 v k3 Hx. unfold via_try in Hx. simpl in Hx.
    inversion Hx; subst. split; reflexivity.
Qed.

(* ----------------------------------------------------------------- *)
(** *** Write direction *)

(** C1: a cell whose exact type has a registered converter is NOT converted
    by the write stage.  [dict] is registered to [DictConverter], whose
    [write_value] would turn the cell [{"a": 1, "b": 2}] into its item
    pairs; the stage looks the converter up under the type of the rows built
    so far, finds none for [list], and hands the cell on unchanged. *)
Theorem write_stage_skips_registered_converter :
  let cell := VDict sample_dict in
  let c : Ctx CellRange := mkCtx None (grid_val [[cell]]) [] in
  registry_get standard_accessors (KeyType (type_of cell))
  = Some (ConverterClass DictConverter.cls)
  /\ DictConverter.write_value cell no_options []
     = (Ok (VList [VTuple [VStr "a"; VInt 1]; VTuple [VStr "b"; VInt 2]]), [])
  /\ ConvertDataStage_call (ConvertDataForWriteStage standard_accessors no_options)
       c empty_world
     = (Ok c, empty_world).
Proof.
  cbv zeta. split; [reflexivity|]. split; [reflexivity|].
  eapply write_stage_without_list_converter; reflexivity.
Qed.

(* ----------------------------------------------------------------- *)
(** *** Read direction *)

Lemma read_resolve_ignores_value : forall accessors options v v',
  ConvertDataFromReadStage_resolve_converters accessors options v
  = ConvertDataFromReadStage_resolve_converters accessors options v'.
Proof.
  intros. reflexivity.
Qed.

Lemma first_success_nil_inv : forall options x k v k',
  first_success options [] x k v k' -> v = x /\ k' = k.
Proof.
  intros options x k v k' H. inversion H; subst. split; reflexivity.
Qed.

(** When every candidate raises, the raw value is what is left. *)
Lemma first_success_all_raise : forall options cs x k v k',
  first_success options cs x k v k' ->
  (forall c k0, In c cs -> exists e k1, read_value c x options k0 = (Raise e, k1)) ->
  v = x.
Proof.
  intros options cs x k v k' H.
  induction H as [x k | c cs x k v k' Hok | c cs x k e k1 v k2 Hraise Hrest IH];
    intros Hall.
  - reflexivity.
  - destruct (Hall c k (or_introl eq_refl)) as (e & k1 & Hr). congruence.
  - apply IH. intros c0 k0 Hin. apply Hall. right. exact Hin.
Qed.

(** C2: on a grid, the read stage returns, and every cell of its result is
    what the first-success policy makes of the raw cell: the candidates are
    tried in order, a raising [read_value] hands over to the next one, the
    first result returned is kept, and with no candidate left the raw value
    stays; the cells are visited row by row, each starting from the cache the
    previous one left.  With the [types] option absent there is no candidate
    and the grid comes back unchanged. *)
Theorem read_stage_first_success_policy :
  forall (Range : Type) accessors options cs (c : Ctx Range) g w v0,
    ctx_value c = grid_val g ->
    ConvertDataFromReadStage_resolve_converters accessors options v0 = Ok cs ->
    (exists g' k',
       ConvertDataStage_call (ConvertDataFromReadStage accessors options) c w
       = (Ok (set_value c (grid_val g')), mkWorld k' (calls w))
       /\ threaded (threaded (first_success options cs)) g (cache w) g' k')
    /\ (opt_types options = None ->
        cs = []
        /\ ConvertDataStage_call (ConvertDataFromReadStage accessors options) c w
           = (Ok c, w)).
Proof.
  intros Range accessors options cs c g w v0 Hv Hres.
  assert (Hconst : forall done cur,
             _resolve_converters (ConvertDataFromReadStage accessors options)
               (grid_val (done ++ [cur])) = Ok cs).
  { intros done cur. simpl.
    rewrite (read_resolve_ignores_value accessors options _ v0). exact Hres. }
  destruct (@convert_rows_const _ cs Hconst g [] (cache w))
    as (g' & k' & Hrun & Hth).
  assert (Hcall :
    ConvertDataStage_call (ConvertDataFromReadStage accessors options) c w
    = (Ok (set_value c (grid_val g')), mkWorld k' (calls w))).
  { unfold ConvertDataStage_call, bind, lift, with_cache, ret.
    rewrite Hv. simpl. rewrite Hrun. reflexivity. }
  assert (Hspec : threaded (threaded (first_success options cs)) g (cache w) g' k').
  { eapply threaded_impl; [|exact Hth].
    intros row k1 row' k2. apply threaded_impl.
    intros x k3 v k4. apply try_converters_first_success. }
  split.
  - exists g', k'. split; assumption.
  - intros Hnone.
    assert (Hcs : cs = []).
    { unfold ConvertDataFromReadStage_resolve_converters in Hres.
      rewrite Hnone in Hres. congruence. }
    split; [exact Hcs|].
    rewrite Hcall. subst cs.
    apply threaded_identity in Hspec.
    + destruct Hspec as [-> ->]. destruct c, w; simpl in *. subst. reflexivity.
    + intros row k1 row' k2 Hrow. apply threaded_identity in Hrow; [exact Hrow|].
      intros x k3 v k4. apply first_success_nil_inv.
Qed.

Lemma read_stage_first_success_policy_witness :
  let c : Ctx CellRange := mkCtx None (grid_val [[VStr "h1"; VStr "zz"]]) [] in
  let cs := [DictConverter.cls; ObjectConverter.cls] in
  let stage :=
    ConvertDataStage_call
      (Range := CellRange)
      (ConvertDataFromReadStage class_accessors dict_then_object_options) in
  ctx_value c = grid_val [[VStr "h1"; VStr "zz"]]
  /\ ConvertDataFromReadStage_resolve_converters class_accessors
       dict_then_object_options VNone = Ok cs
  /\ ((exists g' k',
         stage c one_object_world
         = (Ok (set_value c (grid_val g')), mkWorld k' (calls one_object_world))
         /\ threaded (threaded (first_success dict_then_object_options cs))
              [[VStr "h1"; VStr "zz"]] (cache one_object_world) g' k')
      /\ (opt_types dict_then_object_options = None ->
          cs = [] /\ stage c one_object_world = (Ok c, one_object_world))).
Proof.
  cbv zeta. split; [reflexivity|]. split; [reflexivity|].
  apply (@read_stage_first_success_policy CellRange class_accessors
           dict_then_object_options [DictConverter.cls; ObjectConverter.cls]
           (mkCtx None (grid_val [[VStr "h1"; VStr "zz"]]) [])
           [[VStr "h1"; VStr "zz"]] one_object_world VNone);
    reflexivity.
Defined.

(** The same run, computed: the handle is replaced by the cached object
    (after [DictConverter] raised on it), the other string fails both
    candidates and stays. *)
Example read_stage_first_success_run :
  ConvertDataStage_call
    (ConvertDataFromReadStage class_accessors dict_then_object_options)
    (mkCtx None (grid_val [[VStr "h1"; VStr "zz"]]) []) one_object_world
  = (Ok (mkCtx None (grid_val [[VObj TObject 7; VStr "zz"]]) []), one_object_world).
Proof. reflexivity. Qed.

Lemma mapR_raise : forall (A B : Type) (f : A -> Result B) (e : Exn) (l : list A),
  (forall a e', f a = Raise e' -> e' = e) ->
  (exists a, In a l /\ f a = Raise e) ->
  mapR f l = Raise e.
Proof.
  intros A B f e l Honly. induction l as [|a l IHl]; intros (x & Hin & Hx).
  - destruct Hin.
  - simpl. destruct (f a) as [b|e'] eqn:Efa.
    + simpl. destruct Hin as [->|Hin]; [congruence|].
      rewrite IHl; [reflexivity | exists x; split; assumption].
    + simpl. f_equal. eapply Honly. exact Efa.
Qed.

Lemma insert_by_depth_perm : forall x l, Permutation (x :: l) (insert_by_depth x l).
Proof.
  intros x l. induction l as [|y l IHl]; simpl.
  - apply Permutation_refl.
  - destruct (Nat.ltb (fst x) (fst y)).
    + eapply perm_trans; [apply perm_swap|]. apply perm_skip. exact IHl.
    + apply Permutation_refl.
Qed.

Lemma insert_by_depth_sorted : forall x l,
  StronglySorted deeper_first l -> StronglySorted deeper_first (insert_by_depth x l).
Proof.
  intros x l H. induction H as [|y l Hl IH Hy]; simpl.
  - repeat constructor.
  - destruct (Nat.ltb (fst x) (fst y)) eqn:E.
    + apply Nat.ltb_lt in E. constructor; [exact IH|].
      apply (Permutation_Forall (insert_by_depth_perm x l)).
      constructor; [unfold deeper_first; lia | exact Hy].
    + apply Nat.ltb_ge in E. constructor.
      * constructor; assumption.
      * constructor; [exact E|].
        eapply Forall_impl; [|exact Hy]. unfold deeper_first. intros z Hz. lia.
Qed.

Lemma depth_sort_sorted : forall keyed,
  StronglySorted deeper_first (fold_right insert_by_depth [] keyed)
  /\ Permutation keyed (fold_right insert_by_depth [] keyed).
Proof.
  induction keyed as [|x keyed [IHs IHp]]; simpl.
  - split; constructor.
  - split.
    + apply insert_by_depth_sorted. exact IHs.
    + eapply perm_trans; [apply perm_skip; exact IHp|]. apply insert_by_depth_perm.
Qed.

Lemma mapR_keyed : forall types keyed,
  mapR (fun x => n <- mro_len x ;; Ok (n, x)) types = Ok keyed ->
  map snd keyed = types /\ Forall (fun p => mro_len (snd p) = Ok (fst p)) keyed.
Proof.
  induction types as [|x types IH]; intros keyed H; simpl in H.
  - inversion H. split; constructor.
  - destruct (mro_len x) as [n|e] eqn:En; [|discriminate H]. simpl in H.
    destruct (mapR (fun x => n <- mro_len x ;; Ok (n, x)) types) as [rest|e];
      [|discriminate H].
    inversion H; subst. destruct (IH rest eq_refl) as [Hm Hf].
    split; [simpl; f_equal; exact Hm | constructor; [exact En | exact Hf]].
Qed.

(** When it returns, [_sort_types_by_inheritance] gives the same keys with
    the longer method-resolution order first. *)
Lemma sort_types_by_inheritance_sorted : forall types sorted,
  _sort_types_by_inheritance types = Ok sorted ->
  Permutation types sorted
  /\ StronglySorted
       (fun a b => forall m n, mro_len a = Ok m -> mro_len b = Ok n -> (n <= m)%nat)
       sorted.
Proof.
  intros types sorted H. unfold _sort_types_by_inheritance in H.
  destruct (mapR (fun x => n <- mro_len x ;; Ok (n, x)) types) as [keyed|e] eqn:E;
    [|discriminate H].
  simpl in H. inversion H; subst. clear H.
  destruct (@mapR_keyed types keyed E) as [Hsnd Hkeys].
  destruct (depth_sort_sorted keyed) as [Hsorted Hperm].
  split.
  - rewrite <- Hsnd. apply Permutation_map. exact Hperm.
  - assert (Hkeys' : Forall (fun p => mro_len (snd p) = Ok (fst p))
                       (fold_right insert_by_depth [] keyed))
      by (apply (Permutation_Forall Hperm); exact Hkeys).
    revert Hsorted Hkeys'. generalize (fold_right insert_by_depth [] keyed) as l.
    induction l as [|p l IHl]; intros Hs Hk; simpl.
    + constructor.
    + inversion Hs as [|? ? Hs' Hp]; subst. inversion Hk as [|? ? Hkp Hkl]; subst.
      constructor; [apply IHl; assumption|].
      apply Forall_map. rewrite Forall_forall in *. intros q Hq m n Hm Hn.
      specialize (Hp q Hq). specialize (Hkl q Hq). unfold deeper_first in Hp.
      rewrite Hkp in Hm. rewrite Hkl in Hn. inversion Hm; inversion Hn; subst. exact Hp.
Qed.

(** Any key of the registry that is not a class makes [types='all'] raise. *)
Lemma types_all_raises_with_sentinel_key : forall accessors options k v,
  opt_types options = Some TypesAll ->
  In k (registry_keys accessors) ->
  mro_len k = Raise AttributeError ->
  ConvertDataFromReadStage_resolve_converters accessors options v
  = Raise AttributeError.
Proof.
  intros accessors options k v Hall Hin Hk.
  unfold ConvertDataFromReadStage_resolve_converters. rewrite Hall.
  unfold _sort_types_by_inheritance.
  rewrite (@mapR_raise _ _ (fun x => n <- mro_len x ;; Ok (n, x)) AttributeError).
  - reflexivity.
  - intros a e' H. destruct a; simpl in H; congruence.
  - exists k. split; [exact Hin|]. rewrite Hk. reflexivity.
Qed.

(** On a registry of classes only, [types='all'] lists the converters with
    the deeper class first. *)
Example types_all_on_classes :
  ConvertDataFromReadStage_resolve_converters class_accessors types_all_options VNone
  = Ok [DictConverter.cls; ObjectConverter.cls].
Proof. reflexivity. Qed.

(** C3: with [types='all'] the read stage does NOT get a candidate list out
    of the registry the source files build.  That registry has the keys
    ['raw'] and [None] next to the classes; sorting its keys calls [mro] on
    them, and the [AttributeError] leaves the stage, as the candidates are
    resolved outside the [try]. *)
Theorem types_all_raises_on_standard_registry :
  (forall v,
     ConvertDataFromReadStage_resolve_converters standard_accessors
       types_all_options v = Raise AttributeError)
  /\ ConvertDataStage_call
       (ConvertDataFromReadStage standard_accessors types_all_options)
       (mkCtx None (grid_val [[VInt 1]]) []) empty_world
     = (Raise AttributeError, empty_world).
Proof.
  split.
  - intros v. apply (@types_all_raises_with_sentinel_key _ _ KeyNone).
    + reflexivity.
    + simpl. tauto.
    + reflexivity.
  - reflexivity.
Qed.

(* ----------------------------------------------------------------- *)
(** *** ObjectConverter *)

(** C7, as stated, fails on a handle or key that cannot be hashed: a list
    is in no cache, yet reading it raises [TypeError], not [KeyError]; and
    writing a pair whose key is a list raises [TypeError], returns no key and
    stores nothing. *)
Lemma object_converter_claim_fails_on_unhashable :
  let handle := VList [VInt 1; VInt 2] in
  let pair := VKeyValuePair 1 (VList [VInt 1; VInt 2]) (VObj TObject 8) in
  dict_find [] handle = None
  /\ ObjectConverter.read_value handle no_options [] = (Raise TypeError, [])
  /\ is_KeyValuePair pair = true
  /\ ObjectConverter.write_value pair no_options [] = (Raise TypeError, [])
  /\ ~ (forall h options (cache : Cache),
          dict_find cache h = None ->
          ObjectConverter.read_value h options cache = (Raise KeyError, cache))
  /\ ~ (forall addr key value options (cache : Cache),
          exists cache',
            ObjectConverter.write_value (VKeyValuePair addr key value) options cache
            = (Ok key, cache')).
Proof.
  cbv zeta. repeat (split; [reflexivity|]). split.
  - intros H.
    specialize (H (VList [VInt 1; VInt 2]) no_options [] eq_refl). discriminate H.
  - intros H.
    destruct (H 1%nat (VList [VInt 1; VInt 2]) (VObj TObject 8) no_options [])
      as (cache' & Hw).
    discriminate Hw.
Qed.

(** C7, amended: reading a hashable handle that is not in the cache raises
    [KeyError]; writing anything but a [KeyValuePair] raises [TypeError];
    writing a pair whose key is hashable stores its value under its key and
    returns the key, and reading that key afterwards returns the very value
    stored; a handle or key that cannot be hashed makes either method raise
    [TypeError], and nothing is stored. *)
Theorem object_converter_cache_semantics :
  forall options options' (cache : Cache) handle v addr key value unhashable,
    py_hashable handle = true ->
    dict_find cache handle = None ->
    is_KeyValuePair v = false ->
    py_hashable key = true ->
    py_hashable unhashable = false ->
    ObjectConverter.read_value handle options cache = (Raise KeyError, cache)
    /\ ObjectConverter.write_value v options cache = (Raise TypeError, cache)
    /\ (exists cache',
          ObjectConverter.write_value (VKeyValuePair addr key value) options cache
          = (Ok key, cache')
          /\ dict_find cache' key = Some value
          /\ ObjectConverter.read_value key options' cache' = (Ok value, cache'))
    /\ ObjectConverter.read_value unhashable options cache = (Raise TypeError, cache)
    /\ ObjectConverter.write_value (VKeyValuePair addr unhashable value) options cache
       = (Raise TypeError, cache).
Proof.
  intros options options' cache handle v addr key value unhashable
    Hh Habsent Hv Hk Hu.
  split; [|split; [|split; [|split]]].
  - unfold ObjectConverter.read_value, dict_getitem.
    rewrite Hh, Habsent. reflexivity.
  - destruct v; simpl in Hv; try discriminate; reflexivity.
  - exists (dict_put cache key value).
    assert (Hfind : dict_find (dict_put cache key value) key = Some value)
      by (apply dict_find_put_same; exact Hk).
    split; [|split].
    + unfold ObjectConverter.write_value, dict_setitem. rewrite Hk. reflexivity.
    + exact Hfind.
    + unfold ObjectConverter.read_value, dict_getitem.
      rewrite Hk, Hfind. reflexivity.
  - unfold ObjectConverter.read_value, dict_getitem. rewrite Hu. reflexivity.
  - unfold ObjectConverter.write_value, dict_setitem. rewrite Hu. reflexivity.
Qed.

Lemma object_converter_cache_semantics_witness :
  let cache : Cache := [(VStr "h1", VObj TObject 7)] in
  py_hashable (VStr "h2") = true
  /\ dict_find cache (VStr "h2") = None
  /\ is_KeyValuePair (VInt 3) = false
  /\ py_hashable (VStr "h2") = true
  /\ py_hashable (VList [VInt 1; VInt 2]) = false
  /\ (ObjectConverter.read_value (VStr "h2") no_options cache = (Raise KeyError, cache)
      /\ ObjectConverter.write_value (VInt 3) no_options cache = (Raise TypeError, cache)
      /\ (exists cache',
            ObjectConverter.write_value
              (VKeyValuePair 1 (VStr "h2") (VObj TObject 8)) no_options cache
            = (Ok (VStr "h2"), cache')
            /\ dict_find cache' (VStr "h2") = Some (VObj TObject 8)
            /\ ObjectConverter.read_value (VStr "h2") no_options cache'
               = (Ok (VObj TObject 8), cache'))
      /\ ObjectConverter.read_value (VList [VInt 1; VInt 2]) no_options cache
         = (Raise TypeError, cache)
      /\ ObjectConverter.write_value
           (VKeyValuePair 1 (VList [VInt 1; VInt 2]) (VObj TObject 8)) no_options cache
         = (Raise TypeError, cache)).
Proof.
  cbv zeta. repeat (split; [reflexivity|]).
  apply (@object_converter_cache_semantics no_options no_options
           [(VStr "h1", VObj TObject 7)] (VStr "h2") (VInt 3) 1%nat
           (VStr "h2") (VObj TObject 8) (VList [VInt 1; VInt 2])); reflexivity.
Defined.

(* ----------------------------------------------------------------- *)
(** *** DictConverter *)





(* ----------------------------------------------------------------- *)
(** *** WriteValueToRangeStage *)

(** C10: with no range, or with the empty list as value, the write stage
    makes no call on the range and returns the context as it came: nothing
    is written and the range is not resized. *)
Theorem write_stage_skips_absent_range_or_empty_value :
  forall (Range : Type) (Collab : Collaborators Range)
         options raw (c : Ctx Range) (w : World Range),
    ctx_range c = None \/ ctx_value c = VList [] ->
    WriteValueToRangeStage options raw c w = (Ok c, w).
Proof.
  intros Range Collab options raw c w H.
  unfold WriteValueToRangeStage.
  destruct H as [H | H]; rewrite H.
  - reflexivity.
  - destruct (ctx_range c) as [rng|]; [|reflexivity].
    simpl. rewrite andb_false_r. reflexivity.
Qed.

Lemma write_stage_skips_absent_range_or_empty_value_witness :
  let c1 : Ctx CellRange := mkCtx None (grid_val [[VInt 1]]) [] in
  let c2 : Ctx CellRange := mkCtx (Some (mkCellRange 1 1 3 3)) (VList []) [] in
  (ctx_range c1 = None \/ ctx_value c1 = VList [])
  /\ WriteValueToRangeStage no_options false c1 empty_world = (Ok c1, empty_world)
  /\ (ctx_range c2 = None \/ ctx_value c2 = VList [])
  /\ WriteValueToRangeStage no_options true c2 empty_world = (Ok c2, empty_world).
Proof.
  cbv zeta.
  split; [left; reflexivity|].
  split; [apply (@write_stage_skips_absent_range_or_empty_value CellRange _
                   no_options false (mkCtx None (grid_val [[VInt 1]]) []) empty_world);
          left; reflexivity|].
  split; [right; reflexivity|].
  apply (@write_stage_skips_absent_range_or_empty_value CellRange _ no_options true
           (mkCtx (Some (mkCellRange 1 1 3 3)) (VList []) []) empty_world).
  right; reflexivity.
Defined.

(* ----------------------------------------------------------------- *)
(** *** Indexing and grids *)

Lemma seq_getitem_nth : forall l i x,
  nth_error l i = Some x -> seq_getitem l (Z.of_nat i) = Ok x.
Proof.
  intros l i x H. unfold seq_getitem.
  assert (Hlt : (i < List.length l)%nat)
    by (apply nth_error_Some; congruence).
  replace (Z.of_nat i <? 0) with false by (symmetry; apply Z.ltb_ge; lia).
  replace (0 <=? Z.of_nat i) with true by (symmetry; apply Z.leb_le; lia).
  replace (Z.of_nat i <? Z.of_nat (List.length l)) with true
    by (symmetry; apply Z.ltb_lt; lia).
  simpl. rewrite Nat2Z.id, H. reflexivity.
Qed.

Lemma seq_getitem_head : forall x l, seq_getitem (x :: l) 0 = Ok x.
Proof.
  intros x l. apply (@seq_getitem_nth (x :: l) 0%nat). reflexivity.
Qed.

Lemma seq_getitem_nil : forall i, seq_getitem [] i = Raise IndexError.
Proof.
  intros i. unfold seq_getitem. simpl.
  destruct (i <? 0) eqn:E; simpl.
  - rewrite Z.add_0_r. replace (0 <=? i) with false; [reflexivity|].
    symmetry. apply Z.leb_gt. apply Z.ltb_lt. exact E.
  - rewrite andb_comm.
    replace (i <? 0) with false; reflexivity.
Qed.

Lemma py_len_grid : forall g, py_len (grid_val g) = Ok (Z.of_nat (List.length g)).
Proof.
  intros g. simpl. rewrite length_map. reflexivity.
Qed.

Lemma py_getitem_grid_head : forall row g,
  py_getitem (grid_val (row :: g)) 0 = Ok (VList row).
Proof.
  intros row g. simpl. apply seq_getitem_head.
Qed.

(** [[x[i] for x in grid]] when every row is longer than [i]. *)
Lemma column_of_grid : forall i g,
  Forall (fun row => (i < List.length row)%nat) g ->
  mapR (fun x => py_getitem x (Z.of_nat i)) (map VList g)
  = Ok (map (fun row => nth i row VNone) g).
Proof.
  intros i g H. induction H as [|row g Hrow Hg IH]; simpl.
  - reflexivity.
  - rewrite (@seq_getitem_nth row i (nth i row VNone)).
    + simpl. rewrite IH. reflexivity.
    + apply nth_error_nth'. exact Hrow.
Qed.

(* ----------------------------------------------------------------- *)
(** *** Ensure2DStage *)

(** C6, as stated, fails on the empty list: it is a flat sequence (none of
    its items is a list or tuple), and it is not wrapped as a single row. *)
Lemma Ensure2D_claim_fails_on_empty_list :
  is_flat_sequence (VList [])
  /\ Ensure2DStage (mkCtx None (VList []) []) empty_world
     = (Ok (mkCtx None (VList []) []), empty_world)
  /\ ~ Ensure2D_spec is_flat_sequence (mkCtx None (VList []) []) empty_world.
Proof.
  split; [reflexivity|]. split; [reflexivity|].
  intros (_ & Hflat & _).
  specialize (Hflat eq_refl). discriminate Hflat.
Qed.

(** C6, amended: a sequence of rows is left unchanged; a flat sequence that
    is not empty is wrapped as the single row [[seq]] (the empty one is left
    unchanged); anything that is not a list or tuple is wrapped as
    [[[value]]] and the [scalar] flag is set; the metadata is touched in no
    other case. *)
Theorem Ensure2D_wraps_by_kind :
  forall (Range : Type) (c : Ctx Range) (w : World Range),
    Ensure2D_spec nonempty_flat_sequence c w.
Proof.
  intros Range c w. unfold Ensure2D_spec, nonempty_flat_sequence.
  destruct c as [rng v meta]. simpl.
  unfold Ensure2DStage, bind, lift, ret, set_value. simpl.
  repeat split.
  - intros Hnested.
    destruct v as [| | | |l|l| | |]; simpl in Hnested; try contradiction;
      (destruct l as [|x l]; [reflexivity|]);
      simpl in *; apply andb_true_iff in Hnested; destruct Hnested as [Hx _];
      try rewrite seq_getitem_head; simpl; rewrite Hx; reflexivity.
  - intros [Hflat Hne].
    destruct v as [| | | |l|l| | |]; simpl in Hflat; try contradiction;
      (destruct l as [|x l]; [discriminate Hne|]);
      simpl in *; apply andb_true_iff in Hflat; destruct Hflat as [Hx _];
      try rewrite seq_getitem_head; simpl; rewrite Hx; reflexivity.
  - intros Hseq. rewrite Hseq. reflexivity.
  - intros Hseq c' w'. rewrite Hseq.
    destruct v as [| | | |l|l| | |]; simpl in Hseq; try discriminate;
      (destruct l as [|x l]; simpl;
       [intros H; inversion H; reflexivity|]);
      try rewrite seq_getitem_head; simpl;
      destruct (is_list_or_tuple x); simpl; intros H; inversion H; reflexivity.
Qed.

(** The test the stage really makes: only the first item is looked at. *)
Lemma Ensure2D_by_first_item :
  forall (Range : Type) (c : Ctx Range) (w : World Range) x l,
    ctx_value c = VList (x :: l) \/ ctx_value c = VTuple (x :: l) ->
    Ensure2DStage c w
    = (Ok (if is_list_or_tuple x then c else set_value c (VList [ctx_value c])), w).
Proof.
  intros Range c w x l H. destruct c as [rng v meta]. simpl in H.
  unfold Ensure2DStage, bind, lift, ret, set_value.
  destruct H as [-> | ->]; simpl; try rewrite seq_getitem_head; simpl;
    destruct (is_list_or_tuple x); reflexivity.
Qed.

(* ----------------------------------------------------------------- *)
(** *** AdjustDimensionsStage *)

Lemma of_nat_eqb_1 : forall k, (Z.of_nat k =? 1) = Nat.eqb k 1.
Proof.
  intros k. destruct (Nat.eqb k 1) eqn:E.
  - apply Nat.eqb_eq in E. subst. reflexivity.
  - apply Nat.eqb_neq in E. apply Z.eqb_neq. lia.
Qed.

Lemma first_of_each_grid : forall g,
  Forall (fun row => List.length row = 1%nat) g ->
  (rows <- py_iter (grid_val g) ;;
   xs <- mapR (fun x => py_getitem x 0) rows ;;
   Ok (VList xs))
  = Ok (VList (first_column g)).
Proof.
  intros g H.
  assert (Hc := @column_of_grid 0%nat g).
  change (Z.of_nat 0) with 0 in Hc.
  unfold grid_val, py_iter, bindR. rewrite Hc.
  - reflexivity.
  - eapply Forall_impl; [|exact H]. simpl. intros row Hrow. lia.
Qed.

(** C4, as stated, fails on the grid with no row: with [ndim] absent it is
    none of 1-by-1, 1-by-n, n-by-1, and it is not left as it is: the stage
    raises [IndexError] on [c.value[0]]. *)
Lemma AdjustDimensions_claim_fails_on_empty_grid :
  is_shape 0 0 []
  /\ AdjustDimensionsStage no_options (mkCtx None (grid_val []) []) empty_world
     = (Raise IndexError, empty_world)
  /\ ~ AdjustDimensions_spec 0 0 [] no_options (mkCtx None VNone []) empty_world.
Proof.
  split; [split; [reflexivity | constructor]|].
  split; [reflexivity|].
  unfold AdjustDimensions_spec. simpl.
  intros (_ & _ & _ & H).
  assert (Hne : 0%nat <> 1%nat) by discriminate.
  specialize (H (conj Hne Hne)). discriminate H.
Qed.

(** C4, amended: on an m-by-n grid with at least one row, [ndim] absent
    turns a 1-by-1 grid into its cell, a 1-by-n or n-by-1 grid into a flat
    list and leaves any other grid as it is; [ndim=1] turns a 1-by-n or
    n-by-1 grid into a flat list and raises on a grid with more than one row
    and more than one column; [ndim=2] leaves the grid as it is; any other
    [ndim] raises [ValueError]. *)
Theorem AdjustDimensions_on_nonempty_grid :
  forall (Range : Type) m n g options (c : Ctx Range) (w : World Range),
    is_shape m n g ->
    (1 <= m)%nat ->
    AdjustDimensions_spec m n g options c w.
Proof.
  intros Range m n g options c w [Hm Hrows] Hpos.
  destruct g as [|row g]; [simpl in Hm; lia|].
  assert (Hrow : List.length row = n) by (inversion Hrows; assumption).
  assert (Hcol : n = 1%nat ->
            (rows <- py_iter (grid_val (row :: g)) ;;
             xs <- mapR (fun x => py_getitem x 0) rows ;;
             Ok (VList xs))
            = Ok (VList (first_column (row :: g)))).
  { intros Hn. apply first_of_each_grid. rewrite <- Hn. exact Hrows. }
  unfold AdjustDimensions_spec, AdjustDimensionsStage, bind, lift, ret, raise.
  cbv zeta. unfold set_value. cbn [ctx_value ctx_range ctx_meta].
  rewrite py_len_grid, py_getitem_grid_head.
  cbn [py_len]. rewrite !of_nat_eqb_1.
  unfold first_row. cbn [nth].
  rewrite Hm, Hrow.
  assert (Hcell : m = 1%nat -> n = 1%nat ->
            py_getitem (VList row) 0 = Ok (nth 0 row VNone)).
  { intros _ Hn1. rewrite Hn1 in Hrow.
    destruct row as [|x [|y row]]; simpl in Hrow; try discriminate.
    reflexivity. }
  destruct (opt_ndim options) as [ndim|];
    [destruct (ndim =? 1); [|destruct (ndim =? 2); reflexivity]|];
    destruct (Nat.eqb_spec m 1) as [Em|Em];
    destruct (Nat.eqb_spec n 1) as [En|En];
    repeat split; intros;
    repeat match goal with H : _ /\ _ |- _ => destruct H end;
    try lia; try reflexivity;
    try (rewrite (Hcol En); reflexivity);
    try (rewrite (Hcell Em En); reflexivity).
Qed.

Lemma AdjustDimensions_on_nonempty_grid_witness :
  let g := [[VInt 1; VInt 2; VInt 3]] in
  is_shape 1 3 g
  /\ (1 <= 1)%nat
  /\ AdjustDimensions_spec 1 3 g no_options (mkCtx None VNone []) empty_world.
Proof.
  cbv zeta.
  assert (Hshape : is_shape 1 3 [[VInt 1; VInt 2; VInt 3]]).
  { split; [reflexivity|]. constructor; [reflexivity | constructor]. }
  split; [exact Hshape|]. split; [lia|].
  apply (@AdjustDimensions_on_nonempty_grid CellRange 1 3
           [[VInt 1; VInt 2; VInt 3]] no_options (mkCtx None VNone []) empty_world);
    [exact Hshape | lia].
Defined.

(** The squeezes of the specification, computed. *)
Example AdjustDimensions_squeezes :
  AdjustDimensionsStage no_options (mkCtx None (grid_val [[VInt 7]]) []) empty_world
  = (Ok (mkCtx None (VInt 7) []), empty_world)
  /\ AdjustDimensionsStage no_options
       (mkCtx None (grid_val [[VInt 1; VInt 2; VInt 3]]) []) empty_world
     = (Ok (mkCtx None (VList [VInt 1; VInt 2; VInt 3]) []), empty_world)
  /\ AdjustDimensionsStage (mkOptions None None (Some 1) None None)
       (mkCtx None (grid_val [[VInt 1; VInt 2]; [VInt 3; VInt 4]]) []) empty_world
     = (Raise PlainException, empty_world).
Proof. repeat split. Qed.

(* ----------------------------------------------------------------- *)
(** *** TransposeStage *)

Lemma map_nth_seq : forall (A : Type) (d : A) (l : list A),
  map (fun i => nth i l d) (seq 0 (List.length l)) = l.
Proof.
  intros A d l. induction l as [|a l IHl]; simpl.
  - reflexivity.
  - f_equal. rewrite <- seq_shift, map_map. exact IHl.
Qed.

Lemma mapR_ok_map : forall (A B : Type) (f : A -> Result B) (h : A -> B) l,
  (forall a, In a l -> f a = Ok (h a)) -> mapR f l = Ok (map h l).
Proof.
  intros A B f h l. induction l as [|a l IHl]; intros H; simpl.
  - reflexivity.
  - rewrite (H a (or_introl eq_refl)). simpl.
    rewrite IHl; [reflexivity|]. intros b Hb. apply H. right. exact Hb.
Qed.

Lemma transpose_grid_shape : forall n g,
  is_shape n (List.length g) (transpose_grid n g).
Proof.
  intros n g. unfold is_shape, transpose_grid. split.
  - rewrite length_map, length_seq. reflexivity.
  - apply Forall_forall. intros col Hin. apply in_map_iff in Hin.
    destruct Hin as (i & <- & _). apply length_map.
Qed.

Lemma transpose_grid_involutive : forall m n g,
  is_shape m n g -> transpose_grid m (transpose_grid n g) = g.
Proof.
  intros m n g [Hm Hrows]. unfold transpose_grid. subst m.
  transitivity (map (fun j => nth j g []) (seq 0 (List.length g)));
    [|apply map_nth_seq].
  apply map_ext_in. intros j Hj. apply in_seq in Hj.
  assert (Hlen : List.length (nth j g []) = n).
  { rewrite Forall_forall in Hrows. apply Hrows. apply nth_In. lia. }
  transitivity (map (fun i => nth i (nth j g []) VNone) (seq 0 n));
    [|rewrite <- Hlen; apply map_nth_seq].
  rewrite map_map. apply map_ext_in. intros i Hi.
  rewrite (nth_indep _ VNone (nth i [] VNone)) by (rewrite length_map; lia).
  rewrite (map_nth (fun row : list PyVal => nth i row VNone)). reflexivity.
Qed.

(** One application on a rectangular grid with at least one row. *)
Lemma TransposeStage_on_grid :
  forall (Range : Type) m n g (c : Ctx Range) (w : World Range),
    is_shape m n g ->
    (1 <= m)%nat ->
    TransposeStage (set_value c (grid_val g)) w
    = (Ok (set_value c (grid_val (transpose_grid n g))), w).
Proof.
  intros Range m n g c w [Hm Hrows] Hpos.
  destruct g as [|row g]; [simpl in Hm; lia|].
  assert (Hrow : List.length row = n) by (inversion Hrows; assumption).
  unfold TransposeStage, bind, lift, ret. cbv zeta.
  unfold set_value. cbn [ctx_value ctx_range ctx_meta].
  replace (py_truthy (grid_val (row :: g))) with true by reflexivity.
  rewrite py_getitem_grid_head. cbn [bindR py_len]. rewrite Hrow.
  assert (Hcols :
    mapR (fun i => es <- py_iter (grid_val (row :: g)) ;;
                   col <- mapR (fun e => py_getitem e i) es ;;
                   Ok (VList col))
         (py_range (Z.of_nat n))
    = Ok (map VList (transpose_grid n (row :: g)))).
  { unfold py_range, transpose_grid. rewrite Nat2Z.id.
    rewrite (@mapR_ok_map _ _ _
               (fun z => VList (map (fun r => nth (Z.to_nat z) r VNone) (row :: g)))).
    - rewrite !map_map. f_equal. apply map_ext. intros i.
      rewrite Nat2Z.id. reflexivity.
    - intros z Hz. apply in_map_iff in Hz. destruct Hz as (i & <- & Hi).
      apply in_seq in Hi. rewrite Nat2Z.id.
      unfold grid_val, py_iter, bindR at 1.
      rewrite column_of_grid; [reflexivity|].
      eapply Forall_impl; [|exact Hrows]. simpl. intros r Hr. lia. }
  rewrite Hcols. reflexivity.
Qed.

Lemma TransposeStage_on_empty :
  forall (Range : Type) (c : Ctx Range) (w : World Range),
    TransposeStage (set_value c (grid_val [])) w = (Ok (set_value c (grid_val [])), w).
Proof.
  intros. reflexivity.
Qed.

Lemma column_of_grid_of : forall rt i g,
  Forall (fun row => (i < List.length row)%nat) g ->
  mapR (fun x => py_getitem x (Z.of_nat i)) (map (seq_val rt) g)
  = Ok (map (fun row => nth i row VNone) g).
Proof.
  intros rt i g H. induction H as [|row g Hrow Hg IH]; simpl.
  - reflexivity.
  - assert (Hget : py_getitem (seq_val rt row) (Z.of_nat i) = Ok (nth i row VNone)).
    { destruct rt; simpl; apply seq_getitem_nth; apply nth_error_nth'; exact Hrow. }
    rewrite Hget. simpl. rewrite IH. reflexivity.
Qed.

(** One application on a rectangular grid with at least one row, however
    it is laid out: the result is a list of lists. *)
Lemma TransposeStage_on_grid_of :
  forall (Range : Type) ot rt m n g (c : Ctx Range) (w : World Range),
    is_shape m n g ->
    (1 <= m)%nat ->
    TransposeStage (set_value c (grid_of ot rt g)) w
    = (Ok (set_value c (grid_val (transpose_grid n g))), w).
Proof.
  intros Range ot rt m n g c w [Hm Hrows] Hpos.
  destruct g as [|row g]; [simpl in Hm; lia|].
  assert (Hrow : List.length row = n) by (inversion Hrows; assumption).
  unfold TransposeStage, bind, lift, ret. cbv zeta.
  unfold set_value. cbn [ctx_value ctx_range ctx_meta].
  assert (Htruthy : py_truthy (grid_of ot rt (row :: g)) = true)
    by (destruct ot; reflexivity).
  assert (Hfirst : py_getitem (grid_of ot rt (row :: g)) 0 = Ok (seq_val rt row))
    by (destruct ot; simpl; apply seq_getitem_head).
  assert (Hlen : py_len (seq_val rt row) = Ok (Z.of_nat n))
    by (destruct rt; simpl; rewrite Hrow; reflexivity).
  assert (Hiter : py_iter (grid_of ot rt (row :: g)) = Ok (map (seq_val rt) (row :: g)))
    by (destruct ot; reflexivity).
  rewrite Htruthy, Hfirst. cbn [bindR]. rewrite Hlen.
  assert (Hcols :
    mapR (fun i => es <- py_iter (grid_of ot rt (row :: g)) ;;
                   col <- mapR (fun e => py_getitem e i) es ;;
                   Ok (VList col))
         (py_range (Z.of_nat n))
    = Ok (map VList (transpose_grid n (row :: g)))).
  { unfold py_range, transpose_grid. rewrite Nat2Z.id.
    rewrite (@mapR_ok_map _ _ _
               (fun z => VList (map (fun r => nth (Z.to_nat z) r VNone) (row :: g)))).
    - rewrite !map_map. f_equal. apply map_ext. intros i.
      rewrite Nat2Z.id. reflexivity.
    - intros z Hz. apply in_map_iff in Hz. destruct Hz as (i & <- & Hi).
      apply in_seq in Hi. rewrite Nat2Z.id.
      rewrite Hiter. cbn [bindR].
      rewrite column_of_grid_of; [reflexivity|].
      eapply Forall_impl; [|exact Hrows]. simpl. intros r Hr. lia. }
  rewrite Hcols. reflexivity.
Qed.

Lemma TransposeStage_on_empty_of :
  forall (Range : Type) ot rt (c : Ctx Range) (w : World Range),
    TransposeStage (set_value c (grid_of ot rt [])) w
    = (Ok (set_value c (grid_val [])), w).
Proof.
  intros Range ot rt c w. destruct ot; reflexivity.
Qed.

Lemma transpose_grid_no_column : forall g, transpose_grid 0 g = [].
Proof.
  intros g. reflexivity.
Qed.

(** C9, as stated, fails on a grid with a row and no column: its transpose
    has no row, and transposing that gives the grid with no row, not the
    original.  It also fails on a grid given with tuples: transposing twice
    gives its cells back as a list of lists, not as the tuples they came
    in. *)
Lemma transpose_claim_fails_on_zero_columns :
  is_shape 1 0 [[]]
  /\ transpose_twice (mkCtx None (grid_val [[]]) []) empty_world
     = (Ok (mkCtx None (grid_val []) []), empty_world)
  /\ transpose_twice (mkCtx None (grid_val [[]]) []) empty_world
     <> (Ok (mkCtx None (grid_val [[]]) []), empty_world)
  /\ is_shape 1 2 [[VInt 1; VInt 2]]
  /\ transpose_twice
       (mkCtx None (grid_of true true [[VInt 1; VInt 2]]) []) empty_world
     = (Ok (mkCtx None (grid_val [[VInt 1; VInt 2]]) []), empty_world)
  /\ transpose_twice
       (mkCtx None (grid_of true true [[VInt 1; VInt 2]]) []) empty_world
     <> (Ok (mkCtx None (grid_of true true [[VInt 1; VInt 2]]) []), empty_world).
Proof.
  split; [split; [reflexivity | repeat constructor]|].
  split; [reflexivity|]. split; [discriminate|].
  split; [split; [reflexivity | repeat constructor]|].
  split; [reflexivity|]. discriminate.
Qed.

(** C9, amended: on a rectangular grid given as a list of row lists that
    has no row or at least one column, transposing twice gives the grid
    back; given with tuples, such a grid comes back with the same cells as a
    list of row lists.  One application on a grid with at least one row swaps
    rows and columns and returns a list of row lists.  A grid of rows with no
    column is transposed to the grid with no row, and transposing again
    leaves it so. *)
Theorem transpose_twice_is_identity :
  forall (Range : Type) m n g (outer rows : bool) (c : Ctx Range) (w : World Range),
    is_shape m n g ->
    ((m = 0 \/ 1 <= n)%nat ->
     transpose_twice (set_value c (grid_val g)) w = (Ok (set_value c (grid_val g)), w))
    /\ ((m = 0 \/ 1 <= n)%nat ->
        transpose_twice (set_value c (grid_of outer rows g)) w
        = (Ok (set_value c (grid_val g)), w))
    /\ ((1 <= m)%nat ->
        TransposeStage (set_value c (grid_of outer rows g)) w
        = (Ok (set_value c (grid_val (transpose_grid n g))), w)
        /\ is_shape n m (transpose_grid n g)
        /\ forall i j, (i < n)%nat -> (j < m)%nat ->
             nth j (nth i (transpose_grid n g) []) VNone = nth i (nth j g []) VNone)
    /\ ((1 <= m)%nat -> n = 0%nat ->
        TransposeStage (set_value c (grid_of outer rows g)) w
        = (Ok (set_value c (grid_val [])), w)
        /\ transpose_twice (set_value c (grid_of outer rows g)) w
           = (Ok (set_value c (grid_val [])), w)).
Proof.
  intros Range m n g outer rows c w Hshape.
  assert (Hlen : List.length g = m) by (destruct Hshape; assumption).
  assert (Htwice : forall ot rt, (m = 0 \/ 1 <= n)%nat ->
            transpose_twice (set_value c (grid_of ot rt g)) w
            = (Ok (set_value c (grid_val g)), w)).
  { intros ot rt Hsize. destruct (Nat.eq_dec m 0) as [Hm0 | Hm0].
    - subst m. destruct g; [|discriminate Hm0].
      unfold transpose_twice, bind. rewrite TransposeStage_on_empty_of. reflexivity.
    - assert (Hn : (1 <= n)%nat) by lia.
      unfold transpose_twice, bind.
      rewrite (@TransposeStage_on_grid_of Range ot rt m n g c w Hshape) by lia.
      assert (Hshape' : is_shape n m (transpose_grid n g))
        by (rewrite <- Hlen; apply transpose_grid_shape).
      assert (Hback := @TransposeStage_on_grid Range n m (transpose_grid n g)
                         (set_value c (grid_val (transpose_grid n g))) w Hshape' Hn).
      unfold set_value in *. cbn [ctx_range ctx_meta] in Hback.
      rewrite Hback. rewrite (@transpose_grid_involutive m n g Hshape). reflexivity. }
  split; [exact (Htwice false false)|].
  split; [exact (Htwice outer rows)|].
  split.
  - intros Hm.
    split; [apply (@TransposeStage_on_grid_of Range outer rows m n g c w Hshape Hm)|].
    split; [rewrite <- Hlen; apply transpose_grid_shape|].
    intros i j Hi Hj. unfold transpose_grid.
    rewrite (nth_indep _ [] ((fun i0 => map (fun row => nth i0 row VNone) g) 0%nat))
      by (rewrite length_map, length_seq; lia).
    rewrite (map_nth (fun i0 => map (fun row : list PyVal => nth i0 row VNone) g)).
    rewrite seq_nth by lia. simpl.
    rewrite (nth_indep _ VNone (nth i [] VNone)) by (rewrite length_map; lia).
    rewrite (map_nth (fun row : list PyVal => nth i row VNone)). reflexivity.
  - intros Hm Hn. subst n.
    assert (Hone := @TransposeStage_on_grid_of Range outer rows m 0%nat g c w Hshape Hm).
    rewrite transpose_grid_no_column in Hone.
    split; [exact Hone|].
    unfold transpose_twice, bind. rewrite Hone. reflexivity.
Qed.

Lemma transpose_twice_is_identity_witness :
  let g := [[VInt 1; VInt 2; VInt 3]; [VInt 4; VInt 5; VInt 6]] in
  let c : Ctx CellRange := mkCtx None VNone [] in
  is_shape 2 3 g
  /\ (((2 = 0 \/ 1 <= 3)%nat ->
       transpose_twice (set_value c (grid_val g)) empty_world
       = (Ok (set_value c (grid_val g)), empty_world))
      /\ ((2 = 0 \/ 1 <= 3)%nat ->
          transpose_twice (set_value c (grid_of true true g)) empty_world
          = (Ok (set_value c (grid_val g)), empty_world))
      /\ ((1 <= 2)%nat ->
          TransposeStage (set_value c (grid_of true true g)) empty_world
          = (Ok (set_value c (grid_val (transpose_grid 3 g))), empty_world)
          /\ is_shape 3 2 (transpose_grid 3 g)
          /\ forall i j, (i < 3)%nat -> (j < 2)%nat ->
               nth j (nth i (transpose_grid 3 g) []) VNone
               = nth i (nth j g []) VNone)
      /\ ((1 <= 2)%nat -> 3%nat = 0%nat ->
          TransposeStage (set_value c (grid_of true true g)) empty_world
          = (Ok (set_value c (grid_val [])), empty_world)
          /\ transpose_twice (set_value c (grid_of true true g)) empty_world
             = (Ok (set_value c (grid_val [])), empty_world))).
Proof.
  cbv zeta.
  assert (Hshape : is_shape 2 3 [[VInt 1; VInt 2; VInt 3]; [VInt 4; VInt 5; VInt 6]]).
  { split; [reflexivity|]. repeat constructor. }
  split; [exact Hshape|].
  apply (@transpose_twice_is_identity CellRange 2 3
           [[VInt 1; VInt 2; VInt 3]; [VInt 4; VInt 5; VInt 6]] true true
           (mkCtx None VNone []) empty_world Hshape).
Defined.

(** One application, computed. *)
Example TransposeStage_swaps :
  TransposeStage
    (mkCtx None (grid_val [[VInt 1; VInt 2; VInt 3]; [VInt 4; VInt 5; VInt 6]]) [])
    empty_world
  = (Ok (mkCtx None
           (grid_val [[VInt 1; VInt 4]; [VInt 2; VInt 5]; [VInt 3; VInt 6]]) []),
     empty_world).
Proof. reflexivity. Qed.

(* ----------------------------------------------------------------- *)
(** *** The calls a stage makes *)

Section Emits.

Context {Range : Type} `{Collab : Collaborators Range}.
Variable P : Event Range -> Prop.

Lemma emits_only_ret : forall (A : Type) (a : A), emits_only P (ret (Range := Range) a).
Proof.
  intros A a w. exists []. simpl. rewrite app_nil_r. split; [reflexivity | constructor].
Qed.

Lemma emits_only_raise : forall (A : Type) e, emits_only P (raise (Range := Range) (A := A) e).
Proof.
  intros A e w. exists []. simpl. rewrite app_nil_r. split; [reflexivity | constructor].
Qed.

Lemma emits_only_lift : forall (A : Type) (r : Result A),
  emits_only P (lift (Range := Range) r).
Proof.
  intros A r w. exists []. simpl. rewrite app_nil_r. split; [reflexivity | constructor].
Qed.

Lemma emits_only_emit : forall ev, P ev -> emits_only P (emit ev).
Proof.
  intros ev Hev w. exists [ev]. simpl. split; [reflexivity | repeat constructor; exact Hev].
Qed.

Lemma emits_only_with_cache : forall (A : Type) (m : Conv A),
  emits_only P (with_cache (Range := Range) m).
Proof.
  intros A m w. exists []. unfold with_cache.
  destruct (m (cache w)) as [r k]. simpl. rewrite app_nil_r.
  split; [reflexivity | constructor].
Qed.

Lemma emits_only_bind : forall (A B : Type) (m : Eff Range A) (k : A -> Eff Range B),
  emits_only P m -> (forall a, emits_only P (k a)) -> emits_only P (bind m k).
Proof.
  intros A B m k Hm Hk w. unfold bind.
  destruct (Hm w) as (evs1 & Hcalls1 & HP1).
  destruct (m w) as [[a|e] w1]; simpl in *.
  - destruct (Hk a w1) as (evs2 & Hcalls2 & HP2).
    exists (evs1 ++ evs2)%list. split.
    + rewrite Hcalls2, Hcalls1, app_assoc. reflexivity.
    + apply Forall_app. split; assumption.
  - exists evs1. split; assumption.
Qed.

End Emits.

Ltac emits_step :=
  match goal with
  | |- emits_only _ (bind _ _) => apply emits_only_bind; [|intros ?]
  | |- emits_only _ (ret _) => apply emits_only_ret
  | |- emits_only _ (raise _) => apply emits_only_raise
  | |- emits_only _ (lift _) => apply emits_only_lift
  | |- emits_only _ (with_cache _) => apply emits_only_with_cache
  | |- emits_only _ (emit _) => apply emits_only_emit; exact I
  | |- emits_only _ (if ?b then _ else _) => destruct b
  | |- emits_only _ (match ?x with _ => _ end) => destruct x
  | |- emits_only _ (let _ := _ in _) => cbv zeta
  end.

Lemma WriteValueToRangeStage_write_value_emits :
  forall (Range : Type) (Collab : Collaborators Range) rng value scalar,
    emits_only is_write (WriteValueToRangeStage_write_value rng value scalar).
Proof.
  intros. unfold WriteValueToRangeStage_write_value. repeat emits_step.
Qed.

Lemma WriteValueToRangeStage_emits :
  forall (Range : Type) (Collab : Collaborators Range) options raw (c : Ctx Range),
    emits_only is_write (WriteValueToRangeStage options raw c).
Proof.
  intros. unfold WriteValueToRangeStage.
  repeat first [apply WriteValueToRangeStage_write_value_emits | emits_step].
Qed.


Lemma Ensure2DStage_quiet : forall (Range : Type) (c : Ctx Range),
  emits_only (fun _ => False) (Ensure2DStage c).
Proof.
  intros. unfold Ensure2DStage. repeat emits_step.
Qed.

Lemma TransposeStage_quiet : forall (Range : Type) (c : Ctx Range),
  emits_only (fun _ => False) (TransposeStage c).
Proof.
  intros. unfold TransposeStage. repeat emits_step.
Qed.

Lemma CleanDataForWriteStage_quiet :
  forall (Range : Type) (Collab : Collaborators Range) (c : Ctx Range),
    emits_only (fun _ => False) (CleanDataForWriteStage c).
Proof.
  intros. unfold CleanDataForWriteStage. repeat emits_step.
Qed.

Lemma ConvertDataStage_call_quiet : forall (Range : Type) st (c : Ctx Range),
  emits_only (fun _ => False) (ConvertDataStage_call st c).
Proof.
  intros. unfold ConvertDataStage_call. repeat emits_step.
Qed.

Lemma ClearExpandedRangeStage_emits :
  forall (Range : Type) (Collab : Collaborators Range) options (c : Ctx Range),
    emits_only is_clear (ClearExpandedRangeStage options c).
Proof.
  intros. unfold ClearExpandedRangeStage. repeat emits_step.
Qed.

Section Returns.

Context {Range : Type}.

Lemma returns_with_ret : forall (A : Type) (Q : A -> Prop) (a : A),
  Q a -> returns_with Q (ret (Range := Range) a).
Proof.
  intros A Q a Ha w a' w' H. inversion H; subst. exact Ha.
Qed.

Lemma returns_with_raise : forall (A : Type) (Q : A -> Prop) e,
  returns_with Q (raise (Range := Range) e).
Proof.
  intros A Q e w a' w' H. discriminate H.
Qed.

Lemma returns_with_bind :
  forall (A B : Type) (Q : B -> Prop) (m : Eff Range A) (k : A -> Eff Range B),
    (forall a, returns_with Q (k a)) -> returns_with Q (bind m k).
Proof.
  intros A B Q m k Hk w b w' H. unfold bind in H.
  destruct (m w) as [[a|e] w1]; [|discriminate H].
  exact (Hk a w1 b w' H).
Qed.

End Returns.

Ltac returns_step :=
  match goal with
  | |- returns_with _ (bind _ _) => apply returns_with_bind; intros ?
  | |- returns_with _ (ret _) => apply returns_with_ret; reflexivity
  | |- returns_with _ (raise _) => apply returns_with_raise
  | |- returns_with _ (if ?b then _ else _) => destruct b
  | |- returns_with _ (match ?x with _ => _ end) => destruct x
  | |- returns_with _ (let _ := _ in _) => cbv zeta
  end.

Lemma Ensure2DStage_is_quiet : forall (Range : Type),
  quiet_stage (Ensure2DStage (Range := Range)).
Proof.
  intros Range c. split; [apply Ensure2DStage_quiet|].
  unfold Ensure2DStage. repeat returns_step.
Qed.

Lemma TransposeStage_is_quiet : forall (Range : Type),
  quiet_stage (TransposeStage (Range := Range)).
Proof.
  intros Range c. split; [apply TransposeStage_quiet|].
  unfold TransposeStage. repeat returns_step.
Qed.

Lemma CleanDataForWriteStage_is_quiet :
  forall (Range : Type) (Collab : Collaborators Range),
    quiet_stage (CleanDataForWriteStage (Range := Range)).
Proof.
  intros Range Collab c. split; [apply CleanDataForWriteStage_quiet|].
  unfold CleanDataForWriteStage. repeat returns_step.
Qed.

Lemma ConvertDataStage_call_is_quiet : forall (Range : Type) st,
  quiet_stage (ConvertDataStage_call (Range := Range) st).
Proof.
  intros Range st c. split; [apply ConvertDataStage_call_quiet|].
  unfold ConvertDataStage_call. repeat returns_step.
Qed.

Lemma Pipeline_call_app : forall (Range : Type) (p q : Pipeline (Range := Range)) c w,
  Pipeline_call (p ++ q)%list c w = bind (Pipeline_call p c) (Pipeline_call q) w.
Proof.
  intros Range p q. induction p as [|s p IHp]; intros c w.
  - reflexivity.
  - simpl. unfold bind. destruct (s c w) as [[c1|e] w1].
    + rewrite IHp. unfold bind. reflexivity.
    + reflexivity.
Qed.

(** A run of quiet stages leaves the log and the range as they were. *)
Lemma quiet_prefix : forall (Range : Type) (p : Pipeline (Range := Range)),
  Forall quiet_stage p ->
  forall c w r w',
    Pipeline_call p c w = (r, w') ->
    calls w' = calls w /\ (forall c', r = Ok c' -> ctx_range c' = ctx_range c).
Proof.
  intros Range p Hp. induction Hp as [|s p Hs Hp IH]; intros c w r w' Hrun.
  - inversion Hrun; subst. split; [reflexivity|]. intros c' H. inversion H. reflexivity.
  - simpl in Hrun. unfold bind in Hrun.
    destruct (Hs c) as [Hquiet Hrange].
    destruct (Hquiet w) as (evs & Hcalls & Hnone).
    assert (evs = []) by (destruct evs as [|ev evs]; [reflexivity | inversion Hnone; contradiction]).
    subst evs. rewrite app_nil_r in Hcalls.
    destruct (s c w) as [[c1|e] w1] eqn:Es; simpl in Hcalls.
    + destruct (IH c1 w1 r w' Hrun) as [Hc Hr]. split.
      * rewrite Hc. exact Hcalls.
      * intros c' Hc'. rewrite (Hr c' Hc'). exact (Hrange w c1 w1 Es).
    + inversion Hrun; subst. split; [exact Hcalls|]. intros c' H. discriminate H.
Qed.

Lemma ClearExpandedRangeStage_events :
  forall (Range : Type) (Collab : Collaborators Range) options (c : Ctx Range) w r w',
    ClearExpandedRangeStage options c w = (r, w') ->
    exists cl,
      calls w' = (calls w ++ cl)%list
      /\ Forall is_clear cl
      /\ (List.length cl <= 1)%nat
      /\ (forall c', r = Ok c' ->
          c' = c
          /\ (ctx_range_truthy c = true ->
              truthy_opt (opt_expand options) = true ->
              List.length cl = 1%nat)).
Proof.
  intros Range Collab options c w r w' Hrun.
  unfold ClearExpandedRangeStage, ctx_range_truthy, truthy_opt in *.
  assert (Hnone : forall c0 w0, (Ok c0, w0) = (r, w') -> c0 = c -> w0 = w ->
            (ctx_range_truthy c = true -> truthy_opt (opt_expand options) = true -> False) ->
            exists cl, calls w' = (calls w ++ cl)%list /\ Forall is_clear cl
              /\ (List.length cl <= 1)%nat
              /\ (forall c', r = Ok c' -> c' = c
                  /\ (ctx_range_truthy c = true ->
                      truthy_opt (opt_expand options) = true -> List.length cl = 1%nat))).
  { intros c0 w0 H Hc Hw Habs. inversion H; subst. exists [].
    rewrite app_nil_r. repeat split; auto.
    - inversion H0; reflexivity.
    - intros H1 H2. destruct (Habs H1 H2). }
  unfold ctx_range_truthy, truthy_opt in Hnone.
  destruct (ctx_range c) as [rng|]; [|apply (Hnone c w Hrun eq_refl eq_refl); intros; discriminate].
  destruct (opt_expand options) as [expand|];
    [|apply (Hnone c w Hrun eq_refl eq_refl); intros; discriminate].
  destruct (range_truthy rng) eqn:Et;
    [|apply (Hnone c w Hrun eq_refl eq_refl); intros; discriminate].
  destruct (py_truthy expand) eqn:Ee;
    [|apply (Hnone c w Hrun eq_refl eq_refl); intros; discriminate].
  clear Hnone. simpl in Hrun. unfold bind, lift, ret, emit in Hrun.
  repeat match type of Hrun with
         | context [match ?x with _ => _ end] => destruct x eqn:?
         end;
    inversion Hrun; subst; simpl;
    first [ exists []; rewrite app_nil_r;
            repeat split; auto; intros; discriminate
          | eexists [_]; repeat split; auto;
            [repeat constructor | inversion H; reflexivity] ].
Qed.

(* ----------------------------------------------------------------- *)
(** *** ValueAccessor.writer *)

(** The writer with [expand] set: a run of quiet stages, then the clearing,
    then the write. *)
Lemma ValueAccessor_writer_with_expand :
  forall (Range : Type) (Collab : Collaborators Range) accessors options,
    truthy_opt (opt_expand options) = true ->
    exists pre,
      Forall quiet_stage pre
      /\ ValueAccessor_writer accessors options
         = (pre ++ [ClearExpandedRangeStage options;
                    WriteValueToRangeStage options false])%list.
Proof.
  intros Range Collab accessors options Hexp.
  unfold ValueAccessor_writer, prepend_stage. rewrite Hexp.
  destruct (truthy_opt (opt_transpose options)).
  - exists [Ensure2DStage; TransposeStage;
            ConvertDataStage_call (ConvertDataForWriteStage accessors options);
            CleanDataForWriteStage].
    split; [|reflexivity].
    repeat (apply Forall_cons || apply Forall_nil);
      auto using Ensure2DStage_is_quiet, TransposeStage_is_quiet,
        ConvertDataStage_call_is_quiet, CleanDataForWriteStage_is_quiet.
  - exists [Ensure2DStage;
            ConvertDataStage_call (ConvertDataForWriteStage accessors options);
            CleanDataForWriteStage].
    split; [|reflexivity].
    repeat (apply Forall_cons || apply Forall_nil);
      auto using Ensure2DStage_is_quiet,
        ConvertDataStage_call_is_quiet, CleanDataForWriteStage_is_quiet.
Qed.

(** C5, as stated, fails: writing the scalar 5 to a 3-by-3 range with
    [expand='table'] makes the clearing call first and the write second. *)
Lemma writer_claim_fails_on_scalar_write :
  let c : Ctx CellRange := mkCtx (Some (mkCellRange 1 1 3 3)) (VInt 5) [] in
  let run := Pipeline_call (ValueAccessor_writer standard_accessors expand_table_options)
               c empty_world in
  truthy_opt (opt_expand expand_table_options) = true
  /\ calls (snd run)
     = [ExpanderClear (VStr "table") (mkCellRange 1 1 3 3) (0, 0) (1, 1);
        SetRawValue (mkCellRange 1 1 3 3) (VInt 5)]
  /\ ~ clears_follow_writes (calls (snd run)).
Proof.
  cbv zeta. split; [reflexivity|]. split; [reflexivity|].
  intros (wr & cl & Heq & Hwr & Hcl).
  change (calls (snd (Pipeline_call
            (ValueAccessor_writer standard_accessors expand_table_options)
            (mkCtx (Some (mkCellRange 1 1 3 3)) (VInt 5) []) empty_world)))
    with [ExpanderClear (VStr "table") (mkCellRange 1 1 3 3) (0, 0) (1, 1);
          SetRawValue (mkCellRange 1 1 3 3) (VInt 5)] in Heq.
  destruct wr as [|ev wr].
  - simpl in Heq. subst cl. inversion Hcl as [|? ? _ Hrest]; subst.
    inversion Hrest as [|? ? Hw _]; subst. exact Hw.
  - simpl in Heq. inversion Heq; subst. inversion Hwr as [|? ? Hc _]; subst. exact Hc.
Qed.

(** C5, amended: in every run of the value-write pipeline with [expand] set,
    whether it returns or raises, the calls it adds to the log are at most
    one clearing call followed by writes only: the clearing comes before
    the value is written.  When the run returns and the range is a valid
    one, the clearing call has been made. *)
Theorem writer_clears_before_writing :
  forall (Range : Type) (Collab : Collaborators Range)
         accessors options (c : Ctx Range) w r w',
    truthy_opt (opt_expand options) = true ->
    Pipeline_call (ValueAccessor_writer accessors options) c w = (r, w') ->
    exists cl wr,
      calls w' = (calls w ++ cl ++ wr)%list
      /\ Forall is_clear cl
      /\ Forall is_write wr
      /\ (List.length cl <= 1)%nat
      /\ (forall c', r = Ok c' -> ctx_range_truthy c = true -> List.length cl = 1%nat).
Proof.
  intros Range Collab accessors options c w r w' Hexp Hrun.
  destruct (@ValueAccessor_writer_with_expand Range Collab accessors options Hexp)
    as (pre & Hpre & Hwriter).
  rewrite Hwriter, Pipeline_call_app in Hrun. unfold bind at 1 in Hrun.
  destruct (Pipeline_call pre c w) as [[c1|e] w1] eqn:Epre.
  - destruct (@quiet_prefix Range pre Hpre c w _ _ Epre) as [Hcalls1 Hrange1].
    specialize (Hrange1 c1 eq_refl).
    simpl in Hrun. unfold bind at 1 in Hrun.
    destruct (ClearExpandedRangeStage options c1 w1) as [[c2|e] w2] eqn:Eclear.
    + destruct (@ClearExpandedRangeStage_events Range Collab options c1 w1 _ _ Eclear)
        as (cl & Hcalls2 & Hcl & Hlen & Hok).
      destruct (Hok c2 eq_refl) as [-> Hone].
      unfold bind in Hrun.
      destruct (@WriteValueToRangeStage_emits Range Collab options false c1 w2)
        as (wr & Hcalls3 & Hwr).
      destruct (WriteValueToRangeStage options false c1 w2) as [[c3|e] w3];
        simpl in Hcalls3; inversion Hrun; subst;
        exists cl, wr; rewrite app_assoc, <- Hcalls1, <- Hcalls2;
        (split; [exact Hcalls3|]); repeat split; auto;
        intros c' _ Htruthy; apply Hone; auto;
        unfold ctx_range_truthy in *; rewrite Hrange1; exact Htruthy.
    + destruct (@ClearExpandedRangeStage_events Range Collab options c1 w1 _ _ Eclear)
        as (cl & Hcalls2 & Hcl & Hlen & Hok).
      inversion Hrun; subst. exists cl, [].
      rewrite app_nil_r, <- Hcalls1. repeat split; auto.
      intros c' H. discriminate H.
  - destruct (@quiet_prefix Range pre Hpre c w _ _ Epre) as [Hcalls1 _].
    inversion Hrun; subst. exists [], []. simpl. rewrite app_nil_r.
    repeat split; auto. intros c' H. discriminate H.
Qed.

Lemma writer_clears_before_writing_witness :
  let rng := mkCellRange 1 1 3 3 in
  let c : Ctx CellRange := mkCtx (Some rng) (VInt 5) [] in
  let r : Result (Ctx CellRange) :=
    Ok (mkCtx (Some rng) (grid_val [[VInt 5]]) [("scalar", VBool true)]) in
  let w' : World CellRange :=
    mkWorld [] [ExpanderClear (VStr "table") rng (0, 0) (1, 1);
                SetRawValue rng (VInt 5)] in
  truthy_opt (opt_expand expand_table_options) = true
  /\ Pipeline_call (ValueAccessor_writer standard_accessors expand_table_options)
       c empty_world = (r, w')
  /\ exists cl wr,
       calls w' = (calls empty_world ++ cl ++ wr)%list
       /\ Forall is_clear cl
       /\ Forall is_write wr
       /\ (List.length cl <= 1)%nat
       /\ (forall c', r = Ok c' -> ctx_range_truthy c = true ->
           List.length cl = 1%nat).
Proof.
  cbv zeta. split; [reflexivity|]. split; [reflexivity|].
  apply (@writer_clears_before_writing CellRange _ standard_accessors
           expand_table_options
           (mkCtx (Some (mkCellRange 1 1 3 3)) (VInt 5) []) empty_world);
    reflexivity.
Defined.

(* ----------------------------------------------------------------- *)
(** *** Keys of a dictionary *)

Lemma PyType_eqb_eq : forall a b, PyType_eqb a b = true -> a = b.
Proof.
  intros a b. unfold PyType_eqb. destruct (PyType_eq_dec a b); congruence.
Qed.

Lemma key_eqb_sym : forall a b, key_eqb a b = key_eqb b a.
Proof.
  fix IH 1. intros a b. destruct a, b; simpl; try reflexivity.
  - apply Z.eqb_sym.
  - apply Z.eqb_sym.
  - apply Z.eqb_sym.
  - apply Z.eqb_sym.
  - apply String.eqb_sym.
  - revert l0. induction l as [|x xs IHxs]; intros [|y ys]; try reflexivity.
    rewrite (IH x y), (IHxs ys). reflexivity.
  - apply Nat.eqb_sym.
  - rewrite Nat.eqb_sym. f_equal. unfold PyType_eqb.
    destruct (PyType_eq_dec cls cls0), (PyType_eq_dec cls0 cls); congruence.
Qed.

Lemma key_eqb_trans : forall a b c,
  key_eqb a b = true -> key_eqb b c = true -> key_eqb a c = true.
Proof.
  fix IH 1. intros a b c. destruct a, b; simpl; try discriminate;
    destruct c; simpl; try discriminate; intros H1 H2;
    try reflexivity;
    try (apply Z.eqb_eq in H1; apply Z.eqb_eq in H2; apply Z.eqb_eq; lia).
  - apply String.eqb_eq in H1. apply String.eqb_eq in H2.
    apply String.eqb_eq. congruence.
  - revert l0 l1 H1 H2.
    induction l as [|x xs IHxs]; intros [|y ys] [|z zs] H1 H2;
      try discriminate; try reflexivity.
    apply andb_true_iff in H1. destruct H1 as [Hxy Hxs].
    apply andb_true_iff in H2. destruct H2 as [Hyz Hys].
    rewrite (IH x y z Hxy Hyz). simpl. exact (IHxs ys zs Hxs Hys).
  - apply Nat.eqb_eq in H1. apply Nat.eqb_eq in H2. apply Nat.eqb_eq. congruence.
  - apply andb_true_iff in H1. destruct H1 as [Hc1 Ha1].
    apply andb_true_iff in H2. destruct H2 as [Hc2 Ha2].
    apply PyType_eqb_eq in Hc1. apply PyType_eqb_eq in Hc2. subst.
    apply Nat.eqb_eq in Ha1. apply Nat.eqb_eq in Ha2. subst.
    rewrite PyType_eqb_refl, Nat.eqb_refl. reflexivity.
Qed.

(** Two keys equal to a third are looked up alike. *)
Lemma key_eqb_congr : forall e k k',
  key_eqb e k = true -> key_eqb e k' = key_eqb k k'.
Proof.
  intros e k k' H.
  destruct (key_eqb e k') eqn:E1; destruct (key_eqb k k') eqn:E2; try reflexivity.
  - rewrite key_eqb_sym in H. rewrite (key_eqb_trans _ _ _ H E1) in E2. discriminate.
  - rewrite (key_eqb_trans _ _ _ H E2) in E1. discriminate.
Qed.

Lemma dict_find_put : forall d k v k',
  dict_find (dict_put d k v) k'
  = if key_eqb k k' then Some v else dict_find d k'.
Proof.
  induction d as [|[e ve] d IHd]; intros k v k'; simpl.
  - reflexivity.
  - destruct (key_eqb e k) eqn:Ek; simpl.
    + rewrite (key_eqb_congr _ _ k' Ek). destruct (key_eqb k k'); reflexivity.
    + destruct (key_eqb e k') eqn:Ek'.
      * destruct (key_eqb k k') eqn:Ekk; [|reflexivity].
        rewrite key_eqb_sym in Ekk.
        rewrite (key_eqb_trans _ _ _ Ek' Ekk) in Ek. discriminate.
      * apply IHd.
Qed.

(* ----------------------------------------------------------------- *)
(** *** ObjectConverter: what a write leaves alone *)

Lemma dict_put_length_present : forall d k v v0,
  dict_find d k = Some v0 -> List.length (dict_put d k v) = List.length d.
Proof.
  induction d as [|[e ve] d IHd]; intros k v v0 H; simpl in *.
  - discriminate.
  - destruct (key_eqb e k); simpl; [reflexivity|]. f_equal. eapply IHd. exact H.
Qed.

(** X11: a write under one key leaves the lookup of every other key as it was. *)
Theorem object_write_keeps_other_keys :
  forall options options' addr key value handle (cache cache' : Cache) r,
    ObjectConverter.write_value (VKeyValuePair addr key value) options cache
    = (r, cache') ->
    key_eqb key handle = false ->
    ObjectConverter.read_value handle options' cache'
    = (fst (ObjectConverter.read_value handle options' cache), cache').
Proof.
  intros options options' addr key value handle cache cache' r Hw Hneq.
  unfold ObjectConverter.write_value, dict_setitem in Hw.
  unfold ObjectConverter.read_value, dict_getitem.
  destruct (py_hashable key); inversion Hw; subst; clear Hw.
  - destruct (py_hashable handle); [|reflexivity].
    rewrite dict_find_put, Hneq.
    destruct (dict_find cache handle); reflexivity.
  - destruct (py_hashable handle); [|reflexivity].
    destruct (dict_find cache' handle); reflexivity.
Qed.

Lemma object_write_keeps_other_keys_witness :
  let cache : Cache := [(VStr "h1", VObj TObject 7)] in
  let cache' : Cache := [(VStr "h1", VObj TObject 7); (VStr "h2", VObj TObject 8)] in
  ObjectConverter.write_value (VKeyValuePair 1 (VStr "h2") (VObj TObject 8))
    no_options cache = (Ok (VStr "h2"), cache')
  /\ key_eqb (VStr "h2") (VStr "h1") = false
  /\ ObjectConverter.read_value (VStr "h1") no_options cache'
     = (fst (ObjectConverter.read_value (VStr "h1") no_options cache), cache').
Proof.
  cbv zeta. split; [reflexivity|]. split; [reflexivity|].
  apply (@object_write_keeps_other_keys no_options no_options 1%nat (VStr "h2")
           (VObj TObject 8) (VStr "h1") [(VStr "h1", VObj TObject 7)]
           [(VStr "h1", VObj TObject 7); (VStr "h2", VObj TObject 8)]
           (Ok (VStr "h2"))); reflexivity.
Defined.

(** X12: a second write under an equal key replaces the value and adds no
    entry. *)
Theorem object_write_overwrites :
  forall options addr1 addr2 k1 k2 v1 v2 (cache : Cache),
    py_hashable k1 = true ->
    py_hashable k2 = true ->
    key_eqb k1 k2 = true ->
    exists c1 c2,
      ObjectConverter.write_value (VKeyValuePair addr1 k1 v1) options cache = (Ok k1, c1)
      /\ ObjectConverter.write_value (VKeyValuePair addr2 k2 v2) options c1 = (Ok k2, c2)
      /\ ObjectConverter.read_value k1 options c2 = (Ok v2, c2)
      /\ ObjectConverter.read_value k2 options c2 = (Ok v2, c2)
      /\ List.length c2 = List.length c1.
Proof.
  intros options addr1 addr2 k1 k2 v1 v2 cache H1 H2 Heq.
  exists (dict_put cache k1 v1), (dict_put (dict_put cache k1 v1) k2 v2).
  unfold ObjectConverter.write_value, ObjectConverter.read_value,
    dict_setitem, dict_getitem.
  rewrite H1, H2.
  assert (Hsym : key_eqb k2 k1 = true) by (rewrite key_eqb_sym; exact Heq).
  repeat split.
  - rewrite dict_find_put, Hsym. reflexivity.
  - rewrite dict_find_put, (key_eqb_refl k2 H2). reflexivity.
  - apply dict_put_length_present with (v0 := v1).
    rewrite dict_find_put, Heq. reflexivity.
Qed.

Lemma object_write_overwrites_witness :
  py_hashable (VInt 1) = true
  /\ py_hashable (VBool true) = true
  /\ key_eqb (VInt 1) (VBool true) = true
  /\ exists c1 c2,
       ObjectConverter.write_value (VKeyValuePair 1 (VInt 1) (VStr "old"))
         no_options [] = (Ok (VInt 1), c1)
       /\ ObjectConverter.write_value (VKeyValuePair 2 (VBool true) (VStr "new"))
            no_options c1 = (Ok (VBool true), c2)
       /\ ObjectConverter.read_value (VInt 1) no_options c2 = (Ok (VStr "new"), c2)
       /\ ObjectConverter.read_value (VBool true) no_options c2 = (Ok (VStr "new"), c2)
       /\ List.length c2 = List.length c1.
Proof.
  repeat (split; [reflexivity|]).
  apply (@object_write_overwrites no_options 1%nat 2%nat (VInt 1) (VBool true)
           (VStr "old") (VStr "new") []); reflexivity.
Defined.

(** X13: neither method leaves a half-done change behind: [read_value] never
    changes the cache, whatever it is given and whether it returns or
    raises, and a [write_value] that raises leaves the cache as it was; the
    only error a write raises is [TypeError]. *)
Theorem object_converter_failures_keep_cache :
  forall v options (cache : Cache),
    snd (ObjectConverter.read_value v options cache) = cache
    /\ forall e cache',
         ObjectConverter.write_value v options cache = (Raise e, cache') ->
         cache' = cache /\ e = TypeError.
Proof.
  intros v options cache. split.
  - unfold ObjectConverter.read_value.
    destruct (dict_getitem cache v) as [x|[]]; reflexivity.
  - intros e cache' H.
    unfold ObjectConverter.write_value, dict_setitem in H.
    destruct v; try (inversion H; subst; split; reflexivity).
    destruct (py_hashable v1); inversion H; subst. split; reflexivity.
Qed.

(* ----------------------------------------------------------------- *)
(** *** DictConverter: what read_value builds and rejects *)

Lemma forallb_dict_put : forall (P : PyVal -> bool) d k v,
  forallb (fun kv => P (fst kv)) d = true ->
  P k = true ->
  forallb (fun kv => P (fst kv)) (dict_put d k v) = true.
Proof.
  intros P. induction d as [|[e ve] d IHd]; intros k v Hd Hk; simpl in *.
  - rewrite Hk. reflexivity.
  - apply andb_true_iff in Hd. destruct Hd as [He Hd].
    destruct (key_eqb e k); simpl; rewrite He; simpl; [exact Hd|].
    apply IHd; assumption.
Qed.

Lemma dict_put_wf : forall d k v,
  dict_wf d = true -> py_hashable k = true -> dict_wf (dict_put d k v) = true.
Proof.
  induction d as [|[e ve] d IHd]; intros k v Hwf Hk; simpl in *.
  - rewrite Hk. reflexivity.
  - apply andb_true_iff in Hwf. destruct Hwf as [Hwf Hd].
    apply andb_true_iff in Hwf. destruct Hwf as [He Hlater].
    destruct (key_eqb e k) eqn:Eek; simpl; rewrite He; simpl.
    + rewrite Hlater, Hd. reflexivity.
    + rewrite (IHd k v Hd Hk), andb_true_r.
      apply (forallb_dict_put (fun x => negb (key_eqb e x))); [exact Hlater|].
      rewrite Eek. reflexivity.
Qed.

Lemma dict_of_rows_wf : forall rows acc d,
  dict_wf acc = true -> dict_of_rows rows acc = Ok d -> dict_wf d = true.
Proof.
  induction rows as [|r rows IH]; intros acc d Hacc H; simpl in H.
  - inversion H; subst. exact Hacc.
  - destruct (py_iter r) as [kv|e]; [|discriminate H]. simpl in H.
    destruct kv as [|k [|v [|x kv]]]; try discriminate H.
    unfold dict_setitem in H. destruct (py_hashable k) eqn:Hk; [|discriminate H].
    simpl in H. eapply IH; [|exact H]. apply dict_put_wf; assumption.
Qed.

(** X14: whatever [read_value] returns is a well-formed mapping: hashable keys,
    no two of them equal.  (A [dict] given as input is copied as it is.) *)
Theorem dict_read_returns_wellformed :
  forall value options (k k' : Cache) v,
    match value with VDict d0 => dict_wf d0 = true | _ => True end ->
    DictConverter.read_value value options k = (Ok v, k') ->
    k' = k /\ exists d, v = VDict d /\ dict_wf d = true.
Proof.
  intros value options k k' v Hin H.
  unfold DictConverter.read_value in H. inversion H as [[Hv Hk]]. clear H.
  split; [reflexivity|].
  destruct (if negb (py_truthy value) then Ok tt
            else first <- py_getitem value 0 ;;
                 n <- py_len first ;;
                 (if n =? 2 then Ok tt else Raise AssertionError)) as [[]|e];
    [|discriminate Hv].
  simpl in Hv. unfold py_dict in Hv.
  destruct value; simpl in Hv; try discriminate Hv;
    try (destruct (dict_of_rows _ []) as [d|e] eqn:Ed; [|discriminate Hv];
         simpl in Hv; inversion Hv; subst; exists d; split; [reflexivity|];
         eapply dict_of_rows_wf; [|exact Ed]; reflexivity).
  inversion Hv; subst. exists items. split; [reflexivity | exact Hin].
Qed.

Lemma dict_read_returns_wellformed_witness :
  let rows := VList [VList [VInt 1; VStr "a"]; VList [VBool true; VStr "b"]] in
  True
  /\ DictConverter.read_value rows no_options [] = (Ok (VDict [(VInt 1, VStr "b")]), [])
  /\ ([] = ([] : Cache)
      /\ exists d, VDict [(VInt 1, VStr "b")] = VDict d /\ dict_wf d = true).
Proof.
  cbv zeta. split; [exact I|]. split; [reflexivity|].
  apply (@dict_read_returns_wellformed
           (VList [VList [VInt 1; VStr "a"]; VList [VBool true; VStr "b"]])
           no_options [] [] (VDict [(VInt 1, VStr "b")])); [exact I | reflexivity].
Defined.

Lemma dict_find_app : forall d1 d2 k,
  dict_find (d1 ++ d2)%list k
  = match dict_find d1 k with Some v => Some v | None => dict_find d2 k end.
Proof.
  induction d1 as [|[e ve] d1 IH]; intros d2 k; simpl.
  - reflexivity.
  - destruct (key_eqb e k); [reflexivity | apply IH].
Qed.

Lemma dict_of_rows_last_wins : forall tuples kvs acc,
  Forall (fun kv => py_hashable (fst kv) = true) kvs ->
  exists d,
    dict_of_rows (pair_rows tuples kvs) acc = Ok d
    /\ forall k, dict_find d k
                 = match dict_find (rev kvs) k with
                   | Some v => Some v
                   | None => dict_find acc k
                   end.
Proof.
  intros tuples. induction kvs as [|[k0 v0] kvs IH]; intros acc Hh.
  - exists acc. split; reflexivity.
  - inversion Hh as [|? ? Hk Hrest]; subst. simpl in Hk.
    destruct (IH (dict_put acc k0 v0) Hrest) as (d & Hd & Hfind).
    exists d. split.
    + destruct tuples; simpl; unfold dict_setitem; rewrite Hk; simpl; exact Hd.
    + intros k. rewrite Hfind. simpl rev. rewrite dict_find_app. simpl.
      rewrite dict_find_put.
      destruct (dict_find (rev kvs) k); [reflexivity|].
      destruct (key_eqb k0 k); reflexivity.
Qed.

(** X15: when several rows carry equal keys, the mapping read holds the value of
    the last of them. *)
Theorem dict_read_last_row_wins :
  forall tuples options (k : Cache) kvs,
    Forall (fun kv => py_hashable (fst kv) = true) kvs ->
    exists d,
      DictConverter.read_value (VList (pair_rows tuples kvs)) options k
      = (Ok (VDict d), k)
      /\ forall key, dict_find d key = dict_find (rev kvs) key.
Proof.
  intros tuples options k kvs Hh.
  destruct (@dict_of_rows_last_wins tuples kvs [] Hh) as (d & Hd & Hfind).
  exists d. split.
  - unfold DictConverter.read_value. f_equal.
    assert (Hdict : py_dict (VList (pair_rows tuples kvs)) = Ok (VDict d))
      by (unfold py_dict; simpl; rewrite Hd; reflexivity).
    destruct kvs as [|[k0 v0] kvs].
    + simpl in *. exact Hdict.
    + rewrite Hdict. destruct tuples; reflexivity.
  - intros key. rewrite Hfind. destruct (dict_find (rev kvs) key); reflexivity.
Qed.

Lemma dict_read_last_row_wins_witness :
  let kvs := [(VStr "a", VInt 1); (VStr "b", VInt 2); (VStr "a", VInt 3)] in
  Forall (fun kv => py_hashable (fst kv) = true) kvs
  /\ exists d,
       DictConverter.read_value (VList (pair_rows false kvs)) no_options []
       = (Ok (VDict d), [])
       /\ forall key, dict_find d key = dict_find (rev kvs) key.
Proof.
  cbv zeta.
  assert (H : Forall (fun kv => py_hashable (fst kv) = true)
                [(VStr "a", VInt 1); (VStr "b", VInt 2); (VStr "a", VInt 3)])
    by (repeat constructor).
  split; [exact H|].
  apply (@dict_read_last_row_wins false no_options []
           [(VStr "a", VInt 1); (VStr "b", VInt 2); (VStr "a", VInt 3)] H).
Defined.

Lemma dict_of_rows_app : forall r1 r2 acc,
  dict_of_rows (r1 ++ r2)%list acc = (d <- dict_of_rows r1 acc ;; dict_of_rows r2 d).
Proof.
  induction r1 as [|r r1 IH]; intros r2 acc; simpl.
  - reflexivity.
  - destruct (py_iter r) as [kv|e]; [|reflexivity]. simpl.
    destruct kv as [|k [|v [|x kv]]]; try reflexivity.
    destruct (dict_setitem acc k v) as [d'|e]; [|reflexivity]. simpl. apply IH.
Qed.

(** X16: after a first row of two items, a row that has not exactly two items
    makes [read_value] raise [ValueError], and a row whose key cannot be
    hashed makes it raise [TypeError]; the rows after it are not looked
    at. *)
Theorem dict_read_rejects_bad_row :
  forall options (k : Cache) kvs items kb vb rest,
    kvs <> [] ->
    Forall (fun kv => py_hashable (fst kv) = true) kvs ->
    List.length items <> 2%nat ->
    py_hashable kb = false ->
    DictConverter.read_value
      (VList (pair_rows false kvs ++ VList items :: rest)%list) options k
    = (Raise ValueError, k)
    /\ DictConverter.read_value
         (VList (pair_rows false kvs ++ VList [kb; vb] :: rest)%list) options k
       = (Raise TypeError, k).
Proof.
  intros options k kvs items kb vb rest Hne Hh Hitems Hkb.
  destruct (@dict_of_rows_last_wins false kvs [] Hh) as (d & Hd & _).
  assert (Hassert : forall bad,
    DictConverter.read_value (VList (pair_rows false kvs ++ bad :: rest)%list) options k
    = (py_dict (VList (pair_rows false kvs ++ bad :: rest)%list), k)).
  { intros bad. unfold DictConverter.read_value. f_equal.
    destruct kvs as [|[k0 v0] kvs]; [contradiction Hne; reflexivity|].
    reflexivity. }
  split; rewrite Hassert; f_equal; unfold py_dict; simpl;
    rewrite dict_of_rows_app, Hd; simpl.
  - destruct items as [|a [|b [|c items]]]; simpl in Hitems; try reflexivity. lia.
  - unfold dict_setitem. rewrite Hkb. reflexivity.
Qed.

Lemma dict_read_rejects_bad_row_witness :
  [(VStr "a", VInt 1)] <> []
  /\ Forall (fun kv => py_hashable (fst kv) = true) [(VStr "a", VInt 1)]
  /\ List.length [VStr "b"] <> 2%nat
  /\ py_hashable (VList []) = false
  /\ (DictConverter.read_value
        (VList [VList [VStr "a"; VInt 1]; VList [VStr "b"]; VInt 0]) no_options []
      = (Raise ValueError, [])
      /\ DictConverter.read_value
           (VList [VList [VStr "a"; VInt 1]; VList [VList []; VInt 2]; VInt 0])
           no_options []
         = (Raise TypeError, [])).
Proof.
  split; [discriminate|]. split; [repeat constructor|].
  split; [simpl; lia|]. split; [reflexivity|].
  apply (@dict_read_rejects_bad_row no_options [] [(VStr "a", VInt 1)]
           [VStr "b"] (VList []) (VInt 2) [VInt 0]);
    [discriminate | repeat constructor | simpl; lia | reflexivity].
Defined.

(* ----------------------------------------------------------------- *)
(** *** Wrapping and squeezing together *)

(** X1: [Ensure2DStage] always returns; it touches neither the world nor the
    range; its result passes its own two-dimensionality test; and running it
    again changes nothing. *)
Theorem Ensure2D_idempotent :
  forall (Range : Type) (c : Ctx Range) (w : World Range),
    exists c1,
      Ensure2DStage c w = (Ok c1, w)
      /\ ctx_range c1 = ctx_range c
      /\ looks_2d (ctx_value c1) = true
      /\ Ensure2DStage c1 w = (Ok c1, w).
Proof.
  intros Range [rng v meta] w.
  unfold Ensure2DStage, bind, lift, ret; simpl.
  destruct v as [| | | |l|l| | |];
    try (eexists; repeat split; reflexivity);
    (destruct l as [|x l]; [eexists; repeat split; reflexivity|]);
    simpl; destruct (is_list_or_tuple x) eqn:Ex; simpl;
    eexists; (split; [reflexivity|]); simpl; try rewrite Ex;
    repeat split; reflexivity.
Qed.

Lemma meta_get_set_same : forall m k v d, meta_get (meta_set m k v) k d = v.
Proof.
  induction m as [|[k' v'] m IH]; intros k v d; simpl.
  - rewrite String.eqb_refl. reflexivity.
  - destruct (String.eqb k' k) eqn:E; simpl; rewrite E; [reflexivity | apply IH].
Qed.

(** X2: with [ndim] absent, squeezing undoes the wrapping: a value that is not
    a list or tuple comes back as itself (with the [scalar] flag set), a flat
    sequence of two or more items comes back as itself, and a grid with two
    or more rows whose first row has not exactly one item is left as it
    is. *)
Theorem squeeze_undoes_wrapping :
  forall (Range : Type) options (c : Ctx Range) (w : World Range),
    opt_ndim options = None ->
    (is_list_or_tuple (ctx_value c) = false ->
     ensure_then_adjust options c w
     = (Ok (mkCtx (ctx_range c) (ctx_value c)
              (meta_set (ctx_meta c) "scalar" (VBool true))), w))
    /\ (forall x y l,
          ctx_value c = VList (x :: y :: l) \/ ctx_value c = VTuple (x :: y :: l) ->
          is_list_or_tuple x = false ->
          ensure_then_adjust options c w = (Ok c, w))
    /\ (forall row row2 g,
          ctx_value c = grid_val (row :: row2 :: g) ->
          List.length row <> 1%nat ->
          ensure_then_adjust options c w = (Ok c, w)).
Proof.
  intros Range options [rng v meta] w Hnd.
  unfold ensure_then_adjust, Ensure2DStage, AdjustDimensionsStage,
    bind, lift, ret; simpl. rewrite Hnd.
  split; [|split].
  - intros Hv. rewrite Hv. reflexivity.
  - intros x y l [-> | ->] Hx; simpl; rewrite Hx; simpl;
      destruct (Pos.of_succ_nat (List.length l)); reflexivity.
  - intros row row2 g -> Hrow. simpl.
    replace (Z.of_nat (List.length row) =? 1) with false
      by (symmetry; apply Z.eqb_neq; lia).
    destruct (Pos.of_succ_nat (List.length (map VList g))); reflexivity.
Qed.

Lemma squeeze_undoes_wrapping_witness :
  let c : Ctx CellRange := mkCtx None (VInt 5) [] in
  opt_ndim no_options = None
  /\ ((is_list_or_tuple (ctx_value c) = false ->
       ensure_then_adjust no_options c empty_world
       = (Ok (mkCtx (ctx_range c) (ctx_value c)
                (meta_set (ctx_meta c) "scalar" (VBool true))), empty_world))
      /\ (forall x y l,
            ctx_value c = VList (x :: y :: l) \/ ctx_value c = VTuple (x :: y :: l) ->
            is_list_or_tuple x = false ->
            ensure_then_adjust no_options c empty_world = (Ok c, empty_world))
      /\ (forall row row2 g,
            ctx_value c = grid_val (row :: row2 :: g) ->
            List.length row <> 1%nat ->
            ensure_then_adjust no_options c empty_world = (Ok c, empty_world))).
Proof.
  cbv zeta. split; [reflexivity|].
  apply (@squeeze_undoes_wrapping CellRange no_options (mkCtx None (VInt 5) [])
           empty_world). reflexivity.
Defined.

(** X3: with [ndim] absent, a flat sequence of exactly one item does not come
    back: it is squeezed to the item itself. *)
Theorem squeeze_collapses_single_item :
  forall (Range : Type) options (c : Ctx Range) (w : World Range) x,
    opt_ndim options = None ->
    ctx_value c = VList [x] \/ ctx_value c = VTuple [x] ->
    is_list_or_tuple x = false ->
    ensure_then_adjust options c w = (Ok (set_value c x), w).
Proof.
  intros Range options [rng v meta] w x Hnd Hv Hx.
  unfold ensure_then_adjust, Ensure2DStage, AdjustDimensionsStage,
    bind, lift, ret, set_value; simpl in *. rewrite Hnd.
  destruct Hv as [-> | ->]; simpl; rewrite Hx; reflexivity.
Qed.

Lemma squeeze_collapses_single_item_witness :
  let c : Ctx CellRange := mkCtx None (VList [VInt 5]) [] in
  opt_ndim no_options = None
  /\ (ctx_value c = VList [VInt 5] \/ ctx_value c = VTuple [VInt 5])
  /\ is_list_or_tuple (VInt 5) = false
  /\ ensure_then_adjust no_options c empty_world = (Ok (set_value c (VInt 5)), empty_world).
Proof.
  cbv zeta. split; [reflexivity|]. split; [left; reflexivity|]. split; [reflexivity|].
  apply (@squeeze_collapses_single_item CellRange no_options
           (mkCtx None (VList [VInt 5]) []) empty_world (VInt 5));
    [reflexivity | left; reflexivity | reflexivity].
Defined.

(** X4: with [ndim=1], wrapping then adjusting always ends in a flat sequence:
    [[value]] for a value that is not a list or tuple, the sequence itself for
    a non-empty flat sequence. *)
Theorem ndim_1_gives_flat_sequence :
  forall (Range : Type) options (c : Ctx Range) (w : World Range),
    opt_ndim options = Some 1 ->
    (is_list_or_tuple (ctx_value c) = false ->
     ensure_then_adjust options c w
     = (Ok (mkCtx (ctx_range c) (VList [ctx_value c])
              (meta_set (ctx_meta c) "scalar" (VBool true))), w))
    /\ (forall x l,
          ctx_value c = VList (x :: l) \/ ctx_value c = VTuple (x :: l) ->
          is_list_or_tuple x = false ->
          ensure_then_adjust options c w = (Ok c, w)).
Proof.
  intros Range options [rng v meta] w Hnd.
  unfold ensure_then_adjust, Ensure2DStage, AdjustDimensionsStage,
    bind, lift, ret; simpl. rewrite Hnd.
  split.
  - intros Hv. rewrite Hv. reflexivity.
  - intros x l [-> | ->] Hx; simpl; rewrite Hx; reflexivity.
Qed.

Lemma ndim_1_gives_flat_sequence_witness :
  let options := mkOptions None None (Some 1) None None in
  let c : Ctx CellRange := mkCtx None (VInt 5) [] in
  opt_ndim options = Some 1
  /\ ((is_list_or_tuple (ctx_value c) = false ->
       ensure_then_adjust options c empty_world
       = (Ok (mkCtx (ctx_range c) (VList [ctx_value c])
                (meta_set (ctx_meta c) "scalar" (VBool true))), empty_world))
      /\ (forall x l,
            ctx_value c = VList (x :: l) \/ ctx_value c = VTuple (x :: l) ->
            is_list_or_tuple x = false ->
            ensure_then_adjust options c empty_world = (Ok c, empty_world))).
Proof.
  cbv zeta. split; [reflexivity|].
  apply (@ndim_1_gives_flat_sequence CellRange (mkOptions None None (Some 1) None None)
           (mkCtx None (VInt 5) []) empty_world). reflexivity.
Defined.

(* ----------------------------------------------------------------- *)
(** *** TransposeStage on rows of unequal length *)

(** X5: the rows may be longer than the first one: what lies beyond the width
    of the first row is dropped without an error. *)
Theorem TransposeStage_drops_beyond_first_row :
  forall (Range : Type) row rest (c : Ctx Range) (w : World Range),
    Forall (fun r => (List.length row <= List.length r)%nat) rest ->
    TransposeStage (set_value c (grid_val (row :: rest))) w
    = (Ok (set_value c
             (grid_val (transpose_grid (List.length row) (row :: rest)))), w).
Proof.
  intros Range row rest c w Hrest.
  assert (Hall : Forall (fun r => (List.length row <= List.length r)%nat) (row :: rest))
    by (constructor; [lia | exact Hrest]).
  unfold TransposeStage, bind, lift, ret. cbv zeta.
  unfold set_value. cbn [ctx_value ctx_range ctx_meta].
  replace (py_truthy (grid_val (row :: rest))) with true by reflexivity.
  rewrite py_getitem_grid_head. cbn [bindR py_len].
  unfold py_range, transpose_grid. rewrite Nat2Z.id.
  rewrite (@mapR_ok_map _ _ _
             (fun z => VList (map (fun r => nth (Z.to_nat z) r VNone) (row :: rest)))).
  - unfold grid_val. rewrite !map_map. do 4 f_equal.
    apply map_ext. intros i. rewrite Nat2Z.id. reflexivity.
  - intros z Hz. apply in_map_iff in Hz. destruct Hz as (i & <- & Hi).
    apply in_seq in Hi. rewrite Nat2Z.id.
    unfold grid_val, py_iter, bindR at 1.
    rewrite column_of_grid; [reflexivity|].
    eapply Forall_impl; [|exact Hall]. simpl. intros r Hr. lia.
Qed.

Lemma TransposeStage_drops_beyond_first_row_witness :
  let c : Ctx CellRange := mkCtx None VNone [] in
  Forall (fun r => (List.length [VInt 1] <= List.length r)%nat) [[VInt 2; VInt 3]]
  /\ TransposeStage (set_value c (grid_val [[VInt 1]; [VInt 2; VInt 3]])) empty_world
     = (Ok (set_value c (grid_val (transpose_grid 1 [[VInt 1]; [VInt 2; VInt 3]]))),
        empty_world).
Proof.
  cbv zeta.
  assert (H : Forall (fun r => (List.length [VInt 1] <= List.length r)%nat)
                [[VInt 2; VInt 3]]) by (repeat constructor).
  split; [exact H|].
  apply (@TransposeStage_drops_beyond_first_row CellRange [VInt 1] [[VInt 2; VInt 3]]
           (mkCtx None VNone []) empty_world H).
Defined.

Lemma mapR_raise_inv : forall (A B : Type) (f : A -> Result B) l e,
  mapR f l = Raise e -> exists a, In a l /\ f a = Raise e.
Proof.
  intros A B f l e. induction l as [|a l IH]; simpl; intros H.
  - discriminate H.
  - destruct (f a) as [b|e'] eqn:Ea; simpl in H.
    + destruct (mapR f l) as [bs|e'']; [discriminate H|]. simpl in H.
      destruct (IH H) as (x & Hin & Hx). exists x. split; [right|]; assumption.
    + inversion H; subst. exists a. split; [left; reflexivity | exact Ea].
Qed.

Lemma mapR_raise_in : forall (A B : Type) (f : A -> Result B) (e : Exn) (l : list A),
  (forall a e', In a l -> f a = Raise e' -> e' = e) ->
  (exists a, In a l /\ f a = Raise e) ->
  mapR f l = Raise e.
Proof.
  intros A B f e l Honly Hex.
  destruct (mapR f l) as [bs|e'] eqn:E.
  - exfalso. destruct Hex as (a & Hin & Ha). clear Honly.
    revert bs E. induction l as [|x l IH]; intros bs E; [destruct Hin|].
    simpl in E. destruct (f x) as [b|ex] eqn:Ex; [|discriminate E]. simpl in E.
    destruct (mapR f l) as [bs'|e2]; [|discriminate E].
    destruct Hin as [-> | Hin]; [congruence|]. eapply IH; [exact Hin | reflexivity].
  - apply mapR_raise_inv in E. destruct E as (a & Hin & Ha).
    f_equal. eapply Honly; eassumption.
Qed.

Lemma seq_getitem_only_IndexError : forall l i e,
  seq_getitem l i = Raise e -> e = IndexError.
Proof.
  intros l i e. unfold seq_getitem.
  destruct ((0 <=? (if i <? 0 then i + Z.of_nat (List.length l) else i))
            && ((if i <? 0 then i + Z.of_nat (List.length l) else i)
                <? Z.of_nat (List.length l))).
  - destruct (nth_error l _); intros H; inversion H; reflexivity.
  - intros H; inversion H; reflexivity.
Qed.

Lemma seq_getitem_past_end : forall l i,
  (List.length l <= i)%nat -> seq_getitem l (Z.of_nat i) = Raise IndexError.
Proof.
  intros l i H. unfold seq_getitem.
  replace (Z.of_nat i <? 0) with false by (symmetry; apply Z.ltb_ge; lia).
  replace (Z.of_nat i <? Z.of_nat (List.length l)) with false
    by (symmetry; apply Z.ltb_ge; lia).
  rewrite andb_false_r. reflexivity.
Qed.

(** X6: a row shorter than the first one makes the stage raise [IndexError]. *)
Theorem TransposeStage_short_row_raises :
  forall (Range : Type) row rest (c : Ctx Range) (w : World Range),
    Exists (fun r => (List.length r < List.length row)%nat) rest ->
    TransposeStage (set_value c (grid_val (row :: rest))) w = (Raise IndexError, w).
Proof.
  intros Range row rest c w Hshort.
  apply Exists_exists in Hshort. destruct Hshort as (r & Hin & Hlen).
  unfold TransposeStage, bind, lift, ret. cbv zeta.
  unfold set_value. cbn [ctx_value ctx_range ctx_meta].
  replace (py_truthy (grid_val (row :: rest))) with true by reflexivity.
  rewrite py_getitem_grid_head. cbn [bindR py_len].
  unfold grid_val, py_iter, bindR at 1.
  assert (Hcol : forall i e,
            mapR (fun e0 => py_getitem e0 i) (map VList (row :: rest)) = Raise e ->
            e = IndexError).
  { intros i e H. apply mapR_raise_inv in H. destruct H as (x & Hx & Hget).
    apply in_map_iff in Hx. destruct Hx as (r0 & <- & _).
    simpl in Hget. eapply seq_getitem_only_IndexError. exact Hget. }
  rewrite (@mapR_raise _ _ _ IndexError).
  - reflexivity.
  - intros i e H.
    destruct (mapR (fun e0 => py_getitem e0 i) (map VList (row :: rest))) as [col|e0] eqn:E;
      simpl in H; [discriminate H|].
    inversion H; subst. eapply Hcol. exact E.
  - exists (Z.of_nat (List.length r)). split.
    + unfold py_range. rewrite Nat2Z.id. apply in_map. apply in_seq. lia.
    + rewrite (@mapR_raise_in _ _ (fun e0 => py_getitem e0 (Z.of_nat (List.length r)))
                 IndexError); [reflexivity | | ].
      * intros a e Ha H. apply in_map_iff in Ha. destruct Ha as (r0 & <- & _).
        simpl in H. eapply seq_getitem_only_IndexError. exact H.
      * exists (VList r). split; [apply in_map; right; exact Hin|].
        simpl. apply seq_getitem_past_end. lia.
Qed.

Lemma TransposeStage_short_row_raises_witness :
  let c : Ctx CellRange := mkCtx None VNone [] in
  Exists (fun r => (List.length r < List.length [VInt 1; VInt 2])%nat) [[VInt 3]]
  /\ TransposeStage (set_value c (grid_val [[VInt 1; VInt 2]; [VInt 3]])) empty_world
     = (Raise IndexError, empty_world).
Proof.
  cbv zeta.
  assert (H : Exists (fun r => (List.length r < List.length [VInt 1; VInt 2])%nat)
                [[VInt 3]]) by (constructor; simpl; lia).
  split; [exact H|].
  apply (@TransposeStage_short_row_raises CellRange [VInt 1; VInt 2] [[VInt 3]]
           (mkCtx None VNone []) empty_world H).
Defined.

(* ----------------------------------------------------------------- *)
(** *** Conversion: shape, candidates and the depth sort *)

Lemma convert_cells_length : forall st y done cur k row k',
  convert_cells st done cur y k = (Ok row, k') ->
  List.length row = (List.length cur + List.length y)%nat.
Proof.
  intros st. induction y as [|x y IH]; intros done cur k row k' H; simpl in H.
  - inversion H; subst. simpl. lia.
  - destruct (_resolve_converters st (grid_val (done ++ [cur]))) as [cs|e];
      [|discriminate H].
    destruct (try_converters st cs x k) as [v k1].
    apply IH in H. rewrite H, length_app. simpl. lia.
Qed.

Lemma convert_rows_shape : forall st rows done k g' k',
  convert_rows st done rows k = (Ok g', k') ->
  exists new,
    g' = (done ++ new)%list
    /\ Forall2 (fun y row => exists cells,
                  py_iter y = Ok cells /\ List.length row = List.length cells)
         rows new.
Proof.
  intros st. induction rows as [|y rows IH]; intros done k g' k' H; simpl in H.
  - inversion H; subst. exists []. rewrite app_nil_r. split; constructor.
  - destruct (py_iter y) as [cells|e] eqn:Ey; [|discriminate H].
    destruct (convert_cells st done [] cells k) as [[row|e] k1] eqn:Ec;
      [|discriminate H].
    apply convert_cells_length in Ec. simpl in Ec.
    destruct (IH _ _ _ _ H) as (new & -> & Hnew).
    exists (row :: new). split.
    + rewrite <- app_assoc. reflexivity.
    + constructor; [|exact Hnew]. exists cells. split; [exact Ey | exact Ec].
Qed.

(** X7: whatever the subclass, a run of the conversion stage that returns keeps
    the shape of the value: one row per item of the input, each as long as
    the input row; the range, the metadata and the calls made on the range
    are as before. *)
Theorem ConvertDataStage_keeps_shape :
  forall (Range : Type) st (c c' : Ctx Range) (w w' : World Range),
    ConvertDataStage_call st c w = (Ok c', w') ->
    ctx_range c' = ctx_range c
    /\ ctx_meta c' = ctx_meta c
    /\ calls w' = calls w
    /\ exists rows g',
         py_iter (ctx_value c) = Ok rows
         /\ ctx_value c' = grid_val g'
         /\ Forall2 (fun y row => exists cells,
                       py_iter y = Ok cells /\ List.length row = List.length cells)
              rows g'.
Proof.
  intros Range st c c' w w' H.
  unfold ConvertDataStage_call, bind, lift, with_cache, ret in H.
  destruct (py_iter (ctx_value c)) as [rows|e] eqn:Erows; [|discriminate H].
  destruct (convert_rows st [] rows (cache w)) as [[g'|e] k'] eqn:Ec;
    [|discriminate H].
  inversion H; subst. simpl.
  destruct (convert_rows_shape _ _ _ _ Ec) as (new & Hg & Hshape).
  simpl in Hg. subst g'.
  repeat split. exists rows, new. repeat split; assumption.
Qed.

Lemma ConvertDataStage_keeps_shape_witness :
  let c : Ctx CellRange := mkCtx None (grid_val [[VStr "h1"; VStr "zz"]]) [] in
  let c' : Ctx CellRange := mkCtx None (grid_val [[VObj TObject 7; VStr "zz"]]) [] in
  let st := ConvertDataFromReadStage class_accessors dict_then_object_options in
  ConvertDataStage_call st c one_object_world = (Ok c', one_object_world)
  /\ (ctx_range c' = ctx_range c
      /\ ctx_meta c' = ctx_meta c
      /\ calls one_object_world = calls one_object_world
      /\ exists rows g',
           py_iter (ctx_value c) = Ok rows
           /\ ctx_value c' = grid_val g'
           /\ Forall2 (fun y row => exists cells,
                         py_iter y = Ok cells /\ List.length row = List.length cells)
                rows g').
Proof.
  cbv zeta. split; [reflexivity|].
  apply (@ConvertDataStage_keeps_shape CellRange
           (ConvertDataFromReadStage class_accessors dict_then_object_options)
           (mkCtx None (grid_val [[VStr "h1"; VStr "zz"]]) [])
           (mkCtx None (grid_val [[VObj TObject 7; VStr "zz"]]) [])
           one_object_world one_object_world).
  reflexivity.
Defined.

Lemma converters_of_In : forall accessors ks c,
  In c (converters_of accessors ks)
  <-> exists k, In k ks /\ registry_get accessors k = Some (ConverterClass c).
Proof.
  intros accessors ks c. induction ks as [|k ks IH]; simpl.
  - split; [intros [] | intros (k & [] & _)].
  - destruct (registry_get accessors k) as [[name|conv]|] eqn:Ek.
    + rewrite IH. split.
      * intros (k' & Hin & Hk'). exists k'. split; [right|]; assumption.
      * intros (k' & [-> | Hin] & Hk'); [congruence|]. exists k'. split; assumption.
    + simpl. rewrite IH. split.
      * intros [<- | (k' & Hin & Hk')].
        -- exists k. split; [left; reflexivity | exact Ek].
        -- exists k'. split; [right|]; assumption.
      * intros (k' & [-> | Hin] & Hk').
        -- left. congruence.
        -- right. exists k'. split; assumption.
    + rewrite IH. split.
      * intros (k' & Hin & Hk'). exists k'. split; [right|]; assumption.
      * intros (k' & [-> | Hin] & Hk'); [congruence|]. exists k'. split; assumption.
Qed.

Lemma converters_of_length : forall accessors ks,
  (List.length (converters_of accessors ks) <= List.length ks)%nat.
Proof.
  intros accessors ks. induction ks as [|k ks IH]; simpl; [lia|].
  destruct (registry_get accessors k) as [[name|conv]|]; simpl; lia.
Qed.

(** X8: with [types] a list of keys, or a single key other than ['all'], the
    read stage's candidates never fail to resolve; they are the converters
    registered under the listed keys and nothing else: a key that is not
    registered, or is registered to an accessor that is no converter, gives
    no candidate. *)
Theorem read_candidates_for_listed_types :
  forall accessors options t ks v,
    opt_types options = Some t ->
    t = TypesSeq ks \/ (exists k, t = TypesOne k /\ ks = [k]) ->
    exists cs,
      ConvertDataFromReadStage_resolve_converters accessors options v = Ok cs
      /\ (forall c, In c cs
                    <-> exists k, In k ks
                                  /\ registry_get accessors k = Some (ConverterClass c))
      /\ (List.length cs <= List.length ks)%nat.
Proof.
  intros accessors options t ks v Ht Hks.
  exists (converters_of accessors ks).
  unfold ConvertDataFromReadStage_resolve_converters. rewrite Ht.
  split; [|split].
  - destruct Hks as [-> | (k & -> & ->)]; reflexivity.
  - intros c. apply converters_of_In.
  - apply converters_of_length.
Qed.

Lemma read_candidates_for_listed_types_witness :
  let ks := [KeyStr "raw"; KeyType TDict; KeyType TInt] in
  let options := mkOptions None None None (Some (TypesSeq ks)) None in
  opt_types options = Some (TypesSeq ks)
  /\ (TypesSeq ks = TypesSeq ks \/ (exists k, TypesSeq ks = TypesOne k /\ ks = [k]))
  /\ exists cs,
       ConvertDataFromReadStage_resolve_converters standard_accessors options VNone
       = Ok cs
       /\ (forall c, In c cs
                     <-> exists k, In k ks
                                   /\ registry_get standard_accessors k
                                      = Some (ConverterClass c))
       /\ (List.length cs <= List.length ks)%nat.
Proof.
  cbv zeta. split; [reflexivity|]. split; [left; reflexivity|].
  apply (@read_candidates_for_listed_types standard_accessors
           (mkOptions None None None
              (Some (TypesSeq [KeyStr "raw"; KeyType TDict; KeyType TInt])) None)
           (TypesSeq [KeyStr "raw"; KeyType TDict; KeyType TInt])
           [KeyStr "raw"; KeyType TDict; KeyType TInt] VNone);
    [reflexivity | left; reflexivity].
Defined.

(** X9: [_sort_types_by_inheritance] returns exactly when every key is a class;
    a single key that is not one makes it raise [AttributeError]. *)
Theorem sort_types_returns_iff_classes :
  forall types,
    (Forall (fun k => exists t, k = KeyType t) types ->
     exists sorted, _sort_types_by_inheritance types = Ok sorted)
    /\ (Exists (fun k => forall t, k <> KeyType t) types ->
        _sort_types_by_inheritance types = Raise AttributeError).
Proof.
  intros types. unfold _sort_types_by_inheritance. split.
  - intros Hall.
    rewrite (@mapR_ok_map _ _ _
               (fun x => (match x with KeyType t => List.length (mro t) | _ => 0%nat end, x))).
    + simpl. eexists. reflexivity.
    + intros k Hk. rewrite Forall_forall in Hall.
      destruct (Hall k Hk) as (t & ->). reflexivity.
  - intros Hex. apply Exists_exists in Hex. destruct Hex as (k & Hin & Hk).
    rewrite (@mapR_raise _ _ (fun x => n <- mro_len x ;; Ok (n, x)) AttributeError).
    + reflexivity.
    + intros a e' H. destruct a; simpl in H; congruence.
    + exists k. split; [exact Hin|].
      destruct k as [t| |s]; [exfalso; apply (Hk t); reflexivity | |]; reflexivity.
Qed.

Lemma insert_by_depth_filter : forall (p : nat -> bool) x l,
  (forall y, In y l -> p (fst x) = true -> p (fst y) = true -> fst y = fst x) ->
  filter (fun y => p (fst y)) (insert_by_depth x l)
  = filter (fun y => p (fst y)) (x :: l).
Proof.
  intros p x l. induction l as [|y l IH]; intros Hsame; simpl.
  - reflexivity.
  - destruct (Nat.ltb (fst x) (fst y)) eqn:E.
    + apply Nat.ltb_lt in E. simpl.
      rewrite IH by (intros z Hz; apply Hsame; right; exact Hz). simpl.
      destruct (p (fst x)) eqn:Px; [|reflexivity].
      destruct (p (fst y)) eqn:Py; [|reflexivity].
      assert (fst y = fst x) by (apply Hsame; [left; reflexivity | reflexivity | exact Py]).
      lia.
    + reflexivity.
Qed.

Lemma depth_sort_filter : forall d keyed,
  filter (fun y => Nat.eqb (fst y) d) (fold_right insert_by_depth [] keyed)
  = filter (fun y => Nat.eqb (fst y) d) keyed.
Proof.
  intros d. induction keyed as [|x keyed IH]; simpl; [reflexivity|].
  rewrite (@insert_by_depth_filter (fun n => Nat.eqb n d)).
  - simpl. rewrite IH. reflexivity.
  - intros y _ Hx Hy. apply Nat.eqb_eq in Hx. apply Nat.eqb_eq in Hy. congruence.
Qed.

(** X10: when it returns, [_sort_types_by_inheritance] is a stable sort: it
    gives the same keys, none followed by a key with a longer
    method-resolution order, and keys of equal depth in the order they came
    in. *)
Theorem sort_types_by_inheritance_stable :
  forall types sorted,
    _sort_types_by_inheritance types = Ok sorted ->
    Permutation types sorted
    /\ StronglySorted
         (fun a b => forall m n, mro_len a = Ok m -> mro_len b = Ok n -> (n <= m)%nat)
         sorted
    /\ forall d, filter (has_depth d) sorted = filter (has_depth d) types.
Proof.
  intros types sorted H.
  destruct (sort_types_by_inheritance_sorted _ H) as [Hperm Hsorted].
  split; [exact Hperm|]. split; [exact Hsorted|].
  intros d. unfold _sort_types_by_inheritance in H.
  destruct (mapR (fun x => n <- mro_len x ;; Ok (n, x)) types) as [keyed|e] eqn:E;
    [|discriminate H].
  simpl in H. inversion H; subst. clear H.
  destruct (@mapR_keyed types keyed E) as [Hsnd Hkeys].
  assert (Hfilter : forall l,
            Forall (fun p => mro_len (snd p) = Ok (fst p)) l ->
            filter (has_depth d) (map snd l)
            = map snd (filter (fun y => Nat.eqb (fst y) d) l)).
  { induction l as [|p l IHl]; intros Hl; [reflexivity|].
    inversion Hl as [|? ? Hp Hl']; subst. simpl.
    unfold has_depth at 1. rewrite Hp.
    destruct (Nat.eqb (fst p) d); simpl; rewrite (IHl Hl'); reflexivity. }
  rewrite <- Hsnd. rewrite !Hfilter.
  - rewrite depth_sort_filter. reflexivity.
  - exact Hkeys.
  - destruct (depth_sort_sorted keyed) as [_ Hp].
    apply (Permutation_Forall Hp). exact Hkeys.
Qed.

Lemma sort_types_by_inheritance_stable_witness :
  let types := [KeyType TObject; KeyType TDict; KeyType TBool; KeyType TList] in
  let sorted := [KeyType TBool; KeyType TDict; KeyType TList; KeyType TObject] in
  _sort_types_by_inheritance types = Ok sorted
  /\ (Permutation types sorted
      /\ StronglySorted
           (fun a b => forall m n, mro_len a = Ok m -> mro_len b = Ok n -> (n <= m)%nat)
           sorted
      /\ forall d, filter (has_depth d) sorted = filter (has_depth d) types).
Proof.
  cbv zeta. split; [reflexivity|].
  apply (@sort_types_by_inheritance_stable
           [KeyType TObject; KeyType TDict; KeyType TBool; KeyType TList]
           [KeyType TBool; KeyType TDict; KeyType TList; KeyType TObject]).
  reflexivity.
Defined.

(* ----------------------------------------------------------------- *)
(** *** WriteValueToRangeStage: what is assigned where *)

Section WriteStage.

Context {Range : Type} `{Collab : Collaborators Range}.

Lemma write_value_grid : forall rng g (w : World Range),
  WriteValueToRangeStage_write_value rng (grid_val g) false w
  = (Ok tt, after_calls w (grid_write_calls rng g)).
Proof.
  intros rng g w. unfold WriteValueToRangeStage_write_value, grid_write_calls, after_calls.
  destruct g as [|row g].
  - simpl. rewrite andb_false_r. unfold ret. rewrite app_nil_r. destruct w; reflexivity.
  - replace (py_truthy (grid_val (row :: g))) with true by reflexivity.
    rewrite andb_true_r. destruct (range_api rng).
    + unfold bind, lift, emit. rewrite py_len_grid, py_getitem_grid_head. reflexivity.
    + unfold ret. rewrite app_nil_r. destruct w; reflexivity.
Qed.

Lemma write_value_scalar : forall rng value row cell (w : World Range),
  py_truthy value = true ->
  py_getitem value 0 = Ok row ->
  py_getitem row 0 = Ok cell ->
  WriteValueToRangeStage_write_value rng value true w
  = (Ok tt, after_calls w (scalar_write_calls rng cell)).
Proof.
  intros rng value row cell w Ht Hrow Hcell.
  unfold WriteValueToRangeStage_write_value, scalar_write_calls, after_calls.
  rewrite Ht, andb_true_r. destruct (range_api rng).
  - unfold bind, lift, emit. rewrite Hrow, Hcell. reflexivity.
  - unfold ret. rewrite app_nil_r. destruct w; reflexivity.
Qed.

Lemma after_calls_app : forall (w : World Range) e1 e2,
  after_calls (after_calls w e1) e2 = after_calls w (e1 ++ e2).
Proof.
  intros w e1 e2. unfold after_calls. simpl. rewrite app_assoc. reflexivity.
Qed.

(** X17: in raw mode, on a valid range and a value that is not empty, the stage
    assigns the value to the range as it is, once: no resize, no look at the
    [scalar] flag or at the cells to skip, and the context is unchanged. *)
Theorem WriteValueToRangeStage_raw_assigns_value :
  forall options (c : Ctx Range) (w : World Range) rng,
    ctx_range c = Some rng ->
    range_truthy rng = true ->
    py_truthy (ctx_value c) = true ->
    WriteValueToRangeStage options true c w
    = (Ok c, after_calls w [SetRawValue rng (ctx_value c)]).
Proof.
  intros options c w rng Hr Ht Hv. unfold WriteValueToRangeStage.
  rewrite Hr, Ht, Hv. reflexivity.
Qed.

(** Without the [scalar] flag and without cells to skip, a grid with at
    least one row is written in one assignment, to the range resized to the
    grid's shape. *)
Lemma write_stage_grid_no_skip :
  forall options (c : Ctx Range) (w : World Range) rng g,
    ctx_range c = Some rng ->
    range_truthy rng = true ->
    ctx_value c = grid_val g ->
    g <> [] ->
    py_truthy (meta_get (ctx_meta c) "scalar" (VBool false)) = false ->
    opt_skip_tl_cells options = None ->
    WriteValueToRangeStage options false c w
    = (Ok (mkCtx (Some (range_resize rng (Z.of_nat (List.length g))
                          (Z.of_nat (List.length (first_row g)))))
             (ctx_value c) (ctx_meta c)),
       after_calls w
         (grid_write_calls
            (range_resize rng (Z.of_nat (List.length g))
               (Z.of_nat (List.length (first_row g)))) g)).
Proof.
  intros options c w rng g Hr Ht Hv Hne Hs Hskip.
  destruct g as [|row g]; [contradiction Hne; reflexivity|].
  unfold WriteValueToRangeStage. rewrite Hr, Ht, Hv, Hs, Hskip.
  replace (py_truthy (grid_val (row :: g))) with true by reflexivity.
  cbn [andb negb]. cbv zeta. unfold bind at 1 2 3 4, lift, ret.
  rewrite py_len_grid, py_getitem_grid_head. cbn [py_len].
  unfold bind. rewrite write_value_grid. reflexivity.
Qed.

(** X18: with the [scalar] flag set, the stage assigns the single cell
    [value[0][0]] and never resizes the range: with no cells to skip, to the
    range itself; with cells [(r, c)] to skip, to both sub-ranges
    [range[:r, c:]] and [range[r:, :]], each time only if the target has
    cells. *)
Theorem WriteValueToRangeStage_scalar :
  forall options (c : Ctx Range) (w : World Range) rng row cell,
    ctx_range c = Some rng ->
    range_truthy rng = true ->
    py_truthy (ctx_value c) = true ->
    py_getitem (ctx_value c) 0 = Ok row ->
    py_getitem row 0 = Ok cell ->
    py_truthy (meta_get (ctx_meta c) "scalar" (VBool false)) = true ->
    WriteValueToRangeStage options false c w
    = (Ok c,
       after_calls w
         match opt_skip_tl_cells options with
         | None => scalar_write_calls rng cell
         | Some (r, k) =>
             scalar_write_calls (range_getitem rng (SliceTo r) (SliceFrom k)) cell
             ++ scalar_write_calls (range_getitem rng (SliceFrom r) SliceAll) cell
         end).
Proof.
  intros options c w rng row cell Hr Ht Hv Hrow Hcell Hs.
  unfold WriteValueToRangeStage. rewrite Hr, Ht, Hv, Hs.
  cbn [andb negb]. cbv zeta. unfold bind at 1, ret at 1.
  assert (Hc : mkCtx (Some rng) (ctx_value c) (ctx_meta c) = c)
    by (destruct c; simpl in *; subst; reflexivity).
  rewrite Hc.
  destruct (opt_skip_tl_cells options) as [[r k]|].
  - unfold bind.
    rewrite (fun rng0 w0 => @write_value_scalar rng0 (ctx_value c) row cell w0 Hv Hrow Hcell).
    rewrite (fun rng0 w0 => @write_value_scalar rng0 (ctx_value c) row cell w0 Hv Hrow Hcell).
    rewrite after_calls_app. reflexivity.
  - unfold bind.
    rewrite (fun rng0 w0 => @write_value_scalar rng0 (ctx_value c) row cell w0 Hv Hrow Hcell).
    reflexivity.
Qed.

Lemma slice_top_of_grid : forall r k g,
  (head <- py_slice_to (grid_val g) r ;;
   rows <- py_iter head ;;
   xs <- mapR (fun x => py_slice_from x k) rows ;;
   Ok (VList xs))
  = Ok (grid_val (skip_top r k g)).
Proof.
  intros r k g. unfold grid_val at 1, py_slice_to, bindR at 1, py_iter, bindR at 1.
  rewrite length_map, firstn_map.
  rewrite (@mapR_ok_map _ _ _
             (fun x => match x with
                       | VList l => VList (skipn (clamp_index (List.length l) k) l)
                       | _ => x
                       end)).
  - simpl. unfold grid_val, skip_top. rewrite !map_map. reflexivity.
  - intros x Hx. apply in_map_iff in Hx. destruct Hx as (l & <- & _). reflexivity.
Qed.

Lemma slice_rest_of_grid : forall r g,
  py_slice_from (grid_val g) r = Ok (grid_val (skip_rest r g)).
Proof.
  intros r g. unfold grid_val, py_slice_from, skip_rest.
  rewrite length_map, skipn_map. reflexivity.
Qed.

(** X19: with cells [(r, k)] to skip and no [scalar] flag, a grid is written in
    two parts after the range has been resized to the grid's shape: the
    first [r] rows without their first [k] cells go to [range[:r, k:]], the
    rows from [r] on go to [range[r:, :]]; a part without rows, or whose
    target has no cells, is not written.  The first [k] cells of the first
    [r] rows are in neither part. *)
Theorem WriteValueToRangeStage_skip_splits_grid :
  forall options (c : Ctx Range) (w : World Range) rng row g r k,
    ctx_range c = Some rng ->
    range_truthy rng = true ->
    ctx_value c = grid_val (row :: g) ->
    py_truthy (meta_get (ctx_meta c) "scalar" (VBool false)) = false ->
    opt_skip_tl_cells options = Some (r, k) ->
    let rng' := range_resize rng (Z.of_nat (List.length (row :: g)))
                  (Z.of_nat (List.length row)) in
    WriteValueToRangeStage options false c w
    = (Ok (mkCtx (Some rng') (ctx_value c) (ctx_meta c)),
       after_calls w
         (grid_write_calls (range_getitem rng' (SliceTo r) (SliceFrom k))
            (skip_top r k (row :: g))
          ++ grid_write_calls (range_getitem rng' (SliceFrom r) SliceAll)
               (skip_rest r (row :: g)))).
Proof.
  intros options c w rng row g r k Hr Ht Hv Hs Hskip rng'.
  unfold WriteValueToRangeStage. rewrite Hr, Ht, Hv, Hs, Hskip.
  replace (py_truthy (grid_val (row :: g))) with true by reflexivity.
  cbn [andb negb]. cbv zeta. unfold bind at 1 2 3 4, lift at 1 2 3, ret at 1.
  rewrite py_len_grid, py_getitem_grid_head. cbn [py_len].
  unfold bind, lift. rewrite slice_top_of_grid, write_value_grid.
  rewrite slice_rest_of_grid, write_value_grid, after_calls_app. reflexivity.
Qed.

End WriteStage.

(* ----------------------------------------------------------------- *)
(** *** ClearExpandedRangeStage *)

Section ClearStage.

Context {Range : Type} `{Collab : Collaborators Range}.

(** X20: without a valid range, or without a true [expand] option, the clearing
    stage does nothing. *)
Theorem ClearExpandedRangeStage_inactive :
  forall options (c : Ctx Range) (w : World Range),
    ctx_range_truthy c = false \/ truthy_opt (opt_expand options) = false ->
    ClearExpandedRangeStage options c w = (Ok c, w).
Proof.
  intros options c w H.
  unfold ClearExpandedRangeStage, ctx_range_truthy, truthy_opt in *.
  destruct (ctx_range c) as [rng|]; [|reflexivity].
  destruct (opt_expand options) as [e|]; [|reflexivity].
  destruct H as [H | H]; rewrite H; [|rewrite andb_false_r]; reflexivity.
Qed.

(** X21: on a valid range, with [expand] naming an expander, the clearing stage
    makes one call: [clear] on the range as it is, with the cells to skip
    ([(0, 0)] when the option is absent) and the shape of the value, rows by
    width of the first row, which is [(0, 0)] for a value without rows.  If
    the option is not an expander the stage raises [AttributeError] and
    makes no call. *)
Theorem ClearExpandedRangeStage_active :
  forall options (c : Ctx Range) (w : World Range) rng expand g,
    ctx_range c = Some rng ->
    range_truthy rng = true ->
    opt_expand options = Some expand ->
    py_truthy expand = true ->
    py_hashable expand = true ->
    ctx_value c = grid_val g ->
    ClearExpandedRangeStage options c w
    = if expander_has_clear expand
      then (Ok c,
            after_calls w
              [ExpanderClear expand rng
                 (match opt_skip_tl_cells options with Some s => s | None => (0, 0) end)
                 (Z.of_nat (List.length g), Z.of_nat (List.length (first_row g)))])
      else (Raise AttributeError, w).
Proof.
  intros options c w rng expand g Hr Ht He Hte Hh Hv.
  unfold ClearExpandedRangeStage. rewrite Hr, He, Ht, Hte, Hh, Hv.
  cbn [andb]. unfold bind at 1 2, lift at 1 2. rewrite py_len_grid.
  destruct g as [|row g].
  - simpl. unfold bind, lift, emit, ret, after_calls.
    destruct (expander_has_clear expand); reflexivity.
  - replace (Z.of_nat (List.length (row :: g)) =? 0) with false
      by (symmetry; apply Z.eqb_neq; simpl; lia).
    rewrite py_getitem_grid_head. cbn [bindR py_len].
    unfold bind, lift, emit, ret, after_calls, first_row. cbn [nth].
    destruct (expander_has_clear expand); reflexivity.
Qed.

End ClearStage.

Lemma ClearExpandedRangeStage_inactive_witness :
  let c : Ctx CellRange := mkCtx (Some (mkCellRange 1 1 3 3)) (grid_val [[VInt 1]]) [] in
  (ctx_range_truthy c = false \/ truthy_opt (opt_expand no_options) = false)
  /\ ClearExpandedRangeStage no_options c empty_world = (Ok c, empty_world).
Proof.
  cbv zeta. split; [right; reflexivity|].
  apply (@ClearExpandedRangeStage_inactive CellRange _ no_options
           (mkCtx (Some (mkCellRange 1 1 3 3)) (grid_val [[VInt 1]]) []) empty_world).
  right; reflexivity.
Defined.

Lemma ClearExpandedRangeStage_active_witness :
  let rng := mkCellRange 1 1 3 3 in
  let c : Ctx CellRange := mkCtx (Some rng) (grid_val []) [] in
  ctx_range c = Some rng
  /\ range_truthy rng = true
  /\ opt_expand expand_table_options = Some (VStr "table")
  /\ py_truthy (VStr "table") = true
  /\ py_hashable (VStr "table") = true
  /\ ctx_value c = grid_val []
  /\ ClearExpandedRangeStage expand_table_options c empty_world
     = (Ok c, after_calls empty_world [ExpanderClear (VStr "table") rng (0, 0) (0, 0)]).
Proof.
  cbv zeta. repeat (split; [reflexivity|]).
  exact (@ClearExpandedRangeStage_active CellRange _ expand_table_options
           (mkCtx (Some (mkCellRange 1 1 3 3)) (grid_val []) []) empty_world
           (mkCellRange 1 1 3 3) (VStr "table") []
           eq_refl eq_refl eq_refl eq_refl eq_refl eq_refl).
Defined.

(* ----------------------------------------------------------------- *)
(** *** ValueAccessor.writer, end to end *)

Section Writer.

Context {Range : Type} `{Collab : Collaborators Range}.

Lemma Pipeline_call_cons : forall (s : Stage Range) p c w,
  Pipeline_call (s :: p) c w
  = match s c w with
    | (Ok c', w') => Pipeline_call p c' w'
    | (Raise e, w') => (Raise e, w')
    end.
Proof.
  intros. reflexivity.
Qed.

Lemma CleanDataForWriteStage_on_grid : forall (c : Ctx Range) g w,
  ctx_value c = grid_val g ->
  CleanDataForWriteStage c w
  = (Ok (set_value c (grid_val (map (map prepare_xl_data_element) g))), w).
Proof.
  intros c g w Hv. unfold CleanDataForWriteStage, bind, lift, ret, set_value.
  rewrite Hv. simpl.
  rewrite (@mapR_ok_map _ _ _
             (fun y => match y with
                       | VList xs => VList (map prepare_xl_data_element xs)
                       | _ => y
                       end)).
  - unfold grid_val. rewrite !map_map. reflexivity.
  - intros y Hy. apply in_map_iff in Hy. destruct Hy as (row & <- & _). reflexivity.
Qed.

(** X22: the writer, end to end, on a value that is not a list or tuple: with no
    [expand], [transpose] or cells to skip, and no converter registered for
    [list], the prepared value is assigned to the range as it is, which is
    not resized; the context ends with the value wrapped as a 1-by-1 grid
    and the [scalar] flag set. *)
Theorem writer_writes_scalar :
  forall accessors options (c : Ctx Range) (w : World Range) rng,
    truthy_opt (opt_expand options) = false ->
    truthy_opt (opt_transpose options) = false ->
    opt_skip_tl_cells options = None ->
    ConvertDataForWriteStage_resolve_converters accessors options (VList []) = Ok [] ->
    ctx_range c = Some rng ->
    range_truthy rng = true ->
    is_list_or_tuple (ctx_value c) = false ->
    Pipeline_call (ValueAccessor_writer accessors options) c w
    = (Ok (mkCtx (Some rng)
             (grid_val [[prepare_xl_data_element (ctx_value c)]])
             (meta_set (ctx_meta c) "scalar" (VBool true))),
       after_calls w (scalar_write_calls rng (prepare_xl_data_element (ctx_value c)))).
Proof.
  intros accessors options c w rng Hexp Htr Hskip Hconv Hr Ht Hv.
  unfold ValueAccessor_writer, prepend_stage. rewrite Hexp, Htr.
  rewrite Pipeline_call_cons.
  unfold Ensure2DStage at 1. rewrite Hv. unfold ret at 1.
  set (c1 := mkCtx (ctx_range c) (VList [VList [ctx_value c]])
               (meta_set (ctx_meta c) "scalar" (VBool true))).
  rewrite Pipeline_call_cons.
  rewrite (@write_stage_without_list_converter Range accessors options c1
             [[ctx_value c]] w eq_refl Hconv).
  rewrite Pipeline_call_cons.
  rewrite (@CleanDataForWriteStage_on_grid c1 [[ctx_value c]] w eq_refl).
  rewrite Pipeline_call_cons.
  unfold set_value, c1. cbn [ctx_range ctx_meta map].
  unfold WriteValueToRangeStage. cbn [ctx_range ctx_value ctx_meta].
  rewrite Hr, Ht, meta_get_set_same, Hskip.
  replace (py_truthy (grid_val [[prepare_xl_data_element (ctx_value c)]]))
    with true by reflexivity.
  cbn [py_truthy andb negb]. cbv zeta. unfold bind, ret.
  rewrite (@write_value_scalar Range Collab rng
             (grid_val [[prepare_xl_data_element (ctx_value c)]])
             (VList [prepare_xl_data_element (ctx_value c)])
             (prepare_xl_data_element (ctx_value c)) w eq_refl eq_refl eq_refl).
  reflexivity.
Qed.

Lemma quiet_stages_on_empty_list :
  forall accessors options (c : Ctx Range) (w : World Range),
    ctx_value c = VList [] ->
    Ensure2DStage c w = (Ok c, w)
    /\ TransposeStage c w = (Ok c, w)
    /\ ConvertDataStage_call (ConvertDataForWriteStage accessors options) c w = (Ok c, w)
    /\ CleanDataForWriteStage c w = (Ok c, w).
Proof.
  intros accessors options [rng v meta] [k evs] Hv. simpl in Hv. subst v.
  repeat split.
Qed.

(** X23: the writer, end to end, on the empty list with [expand] set: nothing is
    written, and the expander is told to clear with a value shape of
    [(0, 0)]. *)
Theorem writer_empty_value_only_clears :
  forall accessors options (c : Ctx Range) (w : World Range) rng expand,
    opt_expand options = Some expand ->
    py_truthy expand = true ->
    py_hashable expand = true ->
    expander_has_clear expand = true ->
    ctx_range c = Some rng ->
    range_truthy rng = true ->
    ctx_value c = VList [] ->
    Pipeline_call (ValueAccessor_writer accessors options) c w
    = (Ok c,
       after_calls w
         [ExpanderClear expand rng
            (match opt_skip_tl_cells options with Some s => s | None => (0, 0) end)
            (0, 0)]).
Proof.
  intros accessors options c w rng expand He Hte Hh Hclear Hr Ht Hv.
  destruct (quiet_stages_on_empty_list accessors options c w Hv)
    as (HE & HT & HC & HL).
  assert (Htail :
    Pipeline_call
      [ConvertDataStage_call (ConvertDataForWriteStage accessors options);
       CleanDataForWriteStage;
       ClearExpandedRangeStage options;
       WriteValueToRangeStage options false] c w
    = (Ok c,
       after_calls w
         [ExpanderClear expand rng
            (match opt_skip_tl_cells options with Some s => s | None => (0, 0) end)
            (0, 0)])).
  { rewrite Pipeline_call_cons, HC, Pipeline_call_cons, HL, Pipeline_call_cons.
    unfold ClearExpandedRangeStage at 1. rewrite Hr, He, Ht, Hte, Hh, Hv.
    cbn [andb]. unfold bind at 1 2 3 4 5, lift, emit, ret. cbn [py_len List.length].
    cbn [Z.of_nat Z.eqb]. rewrite Hclear.
    rewrite Pipeline_call_cons. unfold WriteValueToRangeStage.
    cbn [ctx_range ctx_value]. rewrite Hr, Hv, Ht. cbn [py_truthy List.length Nat.eqb negb andb].
    unfold ret. cbn [Pipeline_call].
    reflexivity. }
  unfold ValueAccessor_writer, prepend_stage, truthy_opt. rewrite He, Hte.
  destruct (opt_transpose options) as [t|]; [destruct (py_truthy t)|];
    rewrite Pipeline_call_cons, HE; try (rewrite Pipeline_call_cons, HT);
    exact Htail.
Qed.

Lemma writer_tail_on_grid :
  forall accessors options (c : Ctx Range) (w : World Range) rng g,
    opt_skip_tl_cells options = None ->
    ConvertDataForWriteStage_resolve_converters accessors options (VList []) = Ok [] ->
    ctx_range c = Some rng ->
    range_truthy rng = true ->
    ctx_value c = grid_val g ->
    g <> [] ->
    py_truthy (meta_get (ctx_meta c) "scalar" (VBool false)) = false ->
    let gw := map (map prepare_xl_data_element) g in
    let rng' := range_resize rng (Z.of_nat (List.length gw))
                  (Z.of_nat (List.length (first_row gw))) in
    Pipeline_call
      [ConvertDataStage_call (ConvertDataForWriteStage accessors options);
       CleanDataForWriteStage;
       WriteValueToRangeStage options false] c w
    = (Ok (mkCtx (Some rng') (grid_val gw) (ctx_meta c)),
       after_calls w (grid_write_calls rng' gw)).
Proof.
  intros accessors options c w rng g Hskip Hconv Hr Ht Hv Hne Hs gw rng'.
  subst rng' gw.
  rewrite Pipeline_call_cons.
  rewrite (@write_stage_without_list_converter Range accessors options c g w Hv Hconv).
  rewrite Pipeline_call_cons.
  rewrite (@CleanDataForWriteStage_on_grid c g w Hv).
  rewrite Pipeline_call_cons.
  assert (Hgw : map (map prepare_xl_data_element) g <> [])
    by (destruct g; [contradiction Hne; reflexivity | discriminate]).
  rewrite (@write_stage_grid_no_skip Range Collab options
             (set_value c (grid_val (map (map prepare_xl_data_element) g))) w rng
             (map (map prepare_xl_data_element) g) Hr Ht eq_refl Hgw Hs Hskip).
  reflexivity.
Qed.

(** X24: the writer, end to end, on a rectangular grid with at least one row
    and one column: with no [expand], no cells to skip, no [scalar] flag and
    no converter registered for [list], the grid (transposed first when
    [transpose] is set) has its cells prepared and is assigned in one call
    to the range resized to the shape of what is written; the context ends
    with that range and that grid. *)
Theorem writer_writes_grid :
  forall accessors options (c : Ctx Range) (w : World Range) rng m n g,
    truthy_opt (opt_expand options) = false ->
    opt_skip_tl_cells options = None ->
    ConvertDataForWriteStage_resolve_converters accessors options (VList []) = Ok [] ->
    ctx_range c = Some rng ->
    range_truthy rng = true ->
    ctx_value c = grid_val g ->
    is_shape m n g ->
    (1 <= m)%nat ->
    (1 <= n)%nat ->
    py_truthy (meta_get (ctx_meta c) "scalar" (VBool false)) = false ->
    let g1 := if truthy_opt (opt_transpose options) then transpose_grid n g else g in
    let gw := map (map prepare_xl_data_element) g1 in
    let rng' := range_resize rng (Z.of_nat (List.length gw))
                  (Z.of_nat (List.length (first_row gw))) in
    Pipeline_call (ValueAccessor_writer accessors options) c w
    = (Ok (mkCtx (Some rng') (grid_val gw) (ctx_meta c)),
       after_calls w (grid_write_calls rng' gw)).
Proof.
  intros accessors options c w rng m n g Hexp Hskip Hconv Hr Ht Hv Hshape Hm Hn Hs.
  assert (Hc : set_value c (grid_val g) = c)
    by (destruct c; simpl in *; subst; reflexivity).
  assert (HE : Ensure2DStage c w = (Ok c, w)).
  { destruct g as [|row rest]; [destruct Hshape as [Hlen _]; simpl in Hlen; lia|].
    rewrite (@Ensure2D_by_first_item Range c w (VList row) (map VList rest)
               (or_introl Hv)).
    reflexivity. }
  unfold ValueAccessor_writer, prepend_stage. rewrite Hexp.
  destruct (truthy_opt (opt_transpose options)); cbv zeta.
  - rewrite Pipeline_call_cons, HE, Pipeline_call_cons.
    rewrite <- Hc at 1.
    rewrite (@TransposeStage_on_grid Range m n g c w Hshape Hm).
    apply (@writer_tail_on_grid accessors options
             (set_value c (grid_val (transpose_grid n g))) w rng
             (transpose_grid n g) Hskip Hconv Hr Ht eq_refl).
    + unfold transpose_grid. destruct n; [lia | discriminate].
    + exact Hs.
  - rewrite Pipeline_call_cons, HE.
    apply (@writer_tail_on_grid accessors options c w rng g Hskip Hconv Hr Ht Hv).
    + destruct g; [destruct Hshape as [Hlen _]; simpl in Hlen; lia | discriminate].
    + exact Hs.
Qed.

(** A decomposition of the writer without [expand]: a run of quiet stages,
    then the write. *)
Lemma ValueAccessor_writer_without_expand :
  forall accessors options,
    truthy_opt (opt_expand options) = false ->
    exists pre,
      Forall quiet_stage pre
      /\ ValueAccessor_writer accessors options
         = (pre ++ [WriteValueToRangeStage options false])%list.
Proof.
  intros accessors options Hexp.
  unfold ValueAccessor_writer, prepend_stage. rewrite Hexp.
  destruct (truthy_opt (opt_transpose options)).
  - exists [Ensure2DStage; TransposeStage;
            ConvertDataStage_call (ConvertDataForWriteStage accessors options);
            CleanDataForWriteStage].
    split; [|reflexivity].
    repeat (apply Forall_cons || apply Forall_nil);
      auto using Ensure2DStage_is_quiet, TransposeStage_is_quiet,
        ConvertDataStage_call_is_quiet, CleanDataForWriteStage_is_quiet.
  - exists [Ensure2DStage;
            ConvertDataStage_call (ConvertDataForWriteStage accessors options);
            CleanDataForWriteStage].
    split; [|reflexivity].
    repeat (apply Forall_cons || apply Forall_nil);
      auto using Ensure2DStage_is_quiet,
        ConvertDataStage_call_is_quiet, CleanDataForWriteStage_is_quiet.
Qed.

(** X25: without a true [expand] option the writer never calls an expander:
    whatever the value, and whether the run returns or raises, every call it
    makes is an assignment to a range. *)
Theorem writer_without_expand_never_clears :
  forall accessors options (c : Ctx Range) (w w' : World Range) r,
    truthy_opt (opt_expand options) = false ->
    Pipeline_call (ValueAccessor_writer accessors options) c w = (r, w') ->
    exists wr, calls w' = (calls w ++ wr)%list /\ Forall is_write wr.
Proof.
  intros accessors options c w w' r Hexp Hrun.
  destruct (@ValueAccessor_writer_without_expand accessors options Hexp)
    as (pre & Hpre & Hwriter).
  rewrite Hwriter, Pipeline_call_app in Hrun. unfold bind at 1 in Hrun.
  destruct (Pipeline_call pre c w) as [[c1|e] w1] eqn:Epre.
  - destruct (@quiet_prefix Range pre Hpre c w _ _ Epre) as [Hcalls1 _].
    simpl in Hrun. unfold bind in Hrun.
    destruct (@WriteValueToRangeStage_emits Range Collab options false c1 w1)
      as (wr & Hcalls2 & Hwr).
    destruct (WriteValueToRangeStage options false c1 w1) as [[c2|e] w2];
      simpl in Hcalls2; inversion Hrun; subst;
      exists wr; rewrite <- Hcalls1; split; assumption.
  - destruct (@quiet_prefix Range pre Hpre c w _ _ Epre) as [Hcalls1 _].
    inversion Hrun; subst. exists []. rewrite app_nil_r.
    split; [exact Hcalls1 | constructor].
Qed.

End Writer.

(* ----------------------------------------------------------------- *)
(** *** Runs of the write stage and of the writer on concrete inputs *)

Lemma WriteValueToRangeStage_raw_assigns_value_witness :
  let rng := mkCellRange 1 1 3 3 in
  let c : Ctx CellRange := mkCtx (Some rng) (VInt 5) [] in
  ctx_range c = Some rng
  /\ range_truthy rng = true
  /\ py_truthy (ctx_value c) = true
  /\ WriteValueToRangeStage no_options true c empty_world
     = (Ok c, after_calls empty_world [SetRawValue rng (VInt 5)]).
Proof.
  cbv zeta. repeat (split; [reflexivity|]).
  exact (@WriteValueToRangeStage_raw_assigns_value CellRange _ no_options
           (mkCtx (Some (mkCellRange 1 1 3 3)) (VInt 5) []) empty_world
           (mkCellRange 1 1 3 3) eq_refl eq_refl eq_refl).
Defined.

Lemma WriteValueToRangeStage_scalar_witness :
  let rng := mkCellRange 1 1 3 3 in
  let options := mkOptions None (Some (1, 1)) None None None in
  let c : Ctx CellRange :=
    mkCtx (Some rng) (grid_val [[VInt 5]]) [("scalar", VBool true)] in
  ctx_range c = Some rng
  /\ range_truthy rng = true
  /\ py_truthy (ctx_value c) = true
  /\ py_getitem (ctx_value c) 0 = Ok (VList [VInt 5])
  /\ py_getitem (VList [VInt 5]) 0 = Ok (VInt 5)
  /\ py_truthy (meta_get (ctx_meta c) "scalar" (VBool false)) = true
  /\ WriteValueToRangeStage options false c empty_world
     = (Ok c,
        after_calls empty_world
          [SetRawValue (mkCellRange 1 2 1 2) (VInt 5);
           SetRawValue (mkCellRange 2 1 2 3) (VInt 5)]).
Proof.
  cbv zeta. repeat (split; [reflexivity|]).
  exact (@WriteValueToRangeStage_scalar CellRange _
           (mkOptions None (Some (1, 1)) None None None)
           (mkCtx (Some (mkCellRange 1 1 3 3)) (grid_val [[VInt 5]])
              [("scalar", VBool true)])
           empty_world (mkCellRange 1 1 3 3) (VList [VInt 5]) (VInt 5)
           eq_refl eq_refl eq_refl eq_refl eq_refl eq_refl).
Defined.

Lemma WriteValueToRangeStage_skip_splits_grid_witness :
  let rng := mkCellRange 1 1 5 5 in
  let options := mkOptions None (Some (1, 1)) None None None in
  let g := [[VStr "h"; VInt 1; VInt 2]; [VInt 3; VInt 4; VInt 5]] in
  let c : Ctx CellRange := mkCtx (Some rng) (grid_val g) [] in
  ctx_range c = Some rng
  /\ range_truthy rng = true
  /\ ctx_value c = grid_val g
  /\ py_truthy (meta_get (ctx_meta c) "scalar" (VBool false)) = false
  /\ opt_skip_tl_cells options = Some (1, 1)
  /\ WriteValueToRangeStage options false c empty_world
     = (Ok (mkCtx (Some (mkCellRange 1 1 2 3)) (grid_val g) []),
        after_calls empty_world
          [SetRawValue (mkCellRange 1 2 1 2) (grid_val [[VInt 1; VInt 2]]);
           SetRawValue (mkCellRange 2 1 1 3) (grid_val [[VInt 3; VInt 4; VInt 5]])]).
Proof.
  cbv zeta. repeat (split; [reflexivity|]).
  exact (@WriteValueToRangeStage_skip_splits_grid CellRange _
           (mkOptions None (Some (1, 1)) None None None)
           (mkCtx (Some (mkCellRange 1 1 5 5))
              (grid_val [[VStr "h"; VInt 1; VInt 2]; [VInt 3; VInt 4; VInt 5]]) [])
           empty_world (mkCellRange 1 1 5 5)
           [VStr "h"; VInt 1; VInt 2] [[VInt 3; VInt 4; VInt 5]] 1 1
           eq_refl eq_refl eq_refl eq_refl eq_refl).
Defined.

Lemma writer_writes_scalar_witness :
  let rng := mkCellRange 1 1 3 3 in
  let c : Ctx CellRange := mkCtx (Some rng) (VInt 5) [] in
  truthy_opt (opt_expand no_options) = false
  /\ truthy_opt (opt_transpose no_options) = false
  /\ opt_skip_tl_cells no_options = None
  /\ ConvertDataForWriteStage_resolve_converters standard_accessors no_options
       (VList []) = Ok []
  /\ ctx_range c = Some rng
  /\ range_truthy rng = true
  /\ is_list_or_tuple (ctx_value c) = false
  /\ Pipeline_call (ValueAccessor_writer standard_accessors no_options) c empty_world
     = (Ok (mkCtx (Some rng) (grid_val [[VInt 5]]) [("scalar", VBool true)]),
        after_calls empty_world [SetRawValue rng (VInt 5)]).
Proof.
  cbv zeta. repeat (split; [reflexivity|]).
  exact (@writer_writes_scalar CellRange _ standard_accessors no_options
           (mkCtx (Some (mkCellRange 1 1 3 3)) (VInt 5) []) empty_world
           (mkCellRange 1 1 3 3)
           eq_refl eq_refl eq_refl eq_refl eq_refl eq_refl eq_refl).
Defined.

Lemma writer_empty_value_only_clears_witness :
  let rng := mkCellRange 1 1 3 3 in
  let c : Ctx CellRange := mkCtx (Some rng) (VList []) [] in
  opt_expand expand_table_options = Some (VStr "table")
  /\ py_truthy (VStr "table") = true
  /\ py_hashable (VStr "table") = true
  /\ expander_has_clear (VStr "table") = true
  /\ ctx_range c = Some rng
  /\ range_truthy rng = true
  /\ ctx_value c = VList []
  /\ Pipeline_call (ValueAccessor_writer standard_accessors expand_table_options)
       c empty_world
     = (Ok c,
        after_calls empty_world [ExpanderClear (VStr "table") rng (0, 0) (0, 0)]).
Proof.
  cbv zeta. repeat (split; [reflexivity|]).
  exact (@writer_empty_value_only_clears CellRange _ standard_accessors
           expand_table_options
           (mkCtx (Some (mkCellRange 1 1 3 3)) (VList []) []) empty_world
           (mkCellRange 1 1 3 3) (VStr "table")
           eq_refl eq_refl eq_refl eq_refl eq_refl eq_refl eq_refl).
Defined.

Lemma writer_writes_grid_witness :
  let rng := mkCellRange 1 1 1 1 in
  let options := mkOptions None None None None (Some (VBool true)) in
  let g := [[VInt 1; VInt 2; VInt 3]; [VInt 4; VInt 5; VInt 6]] in
  let c : Ctx CellRange := mkCtx (Some rng) (grid_val g) [] in
  truthy_opt (opt_expand options) = false
  /\ opt_skip_tl_cells options = None
  /\ ConvertDataForWriteStage_resolve_converters standard_accessors options
       (VList []) = Ok []
  /\ ctx_range c = Some rng
  /\ range_truthy rng = true
  /\ ctx_value c = grid_val g
  /\ is_shape 2 3 g
  /\ (1 <= 2)%nat
  /\ (1 <= 3)%nat
  /\ py_truthy (meta_get (ctx_meta c) "scalar" (VBool false)) = false
  /\ Pipeline_call (ValueAccessor_writer standard_accessors options) c empty_world
     = (Ok (mkCtx (Some (mkCellRange 1 1 3 2))
              (grid_val [[VInt 1; VInt 4]; [VInt 2; VInt 5]; [VInt 3; VInt 6]]) []),
        after_calls empty_world
          [SetRawValue (mkCellRange 1 1 3 2)
             (grid_val [[VInt 1; VInt 4]; [VInt 2; VInt 5]; [VInt 3; VInt 6]])]).
Proof.
  cbv zeta.
  assert (Hshape : is_shape 2 3 [[VInt 1; VInt 2; VInt 3]; [VInt 4; VInt 5; VInt 6]])
    by (split; [reflexivity | repeat constructor]).
  do 6 (split; [reflexivity|]). split; [exact Hshape|].
  split; [lia|]. split; [lia|]. split; [reflexivity|].
  exact (@writer_writes_grid CellRange _ standard_accessors
           (mkOptions None None None None (Some (VBool true)))
           (mkCtx (Some (mkCellRange 1 1 1 1))
              (grid_val [[VInt 1; VInt 2; VInt 3]; [VInt 4; VInt 5; VInt 6]]) [])
           empty_world (mkCellRange 1 1 1 1) 2%nat 3%nat
           [[VInt 1; VInt 2; VInt 3]; [VInt 4; VInt 5; VInt 6]]
           eq_refl eq_refl eq_refl eq_refl eq_refl eq_refl Hshape
           (le_S _ _ (le_n 1)) (le_S _ _ (le_S _ _ (le_n 1))) eq_refl).
Defined.

Lemma writer_without_expand_never_clears_witness :
  let rng := mkCellRange 1 1 3 3 in
  let c : Ctx CellRange := mkCtx (Some rng) (VInt 5) [] in
  let r : Result (Ctx CellRange) :=
    Ok (mkCtx (Some rng) (grid_val [[VInt 5]]) [("scalar", VBool true)]) in
  let w' : World CellRange := mkWorld [] [SetRawValue rng (VInt 5)] in
  truthy_opt (opt_expand no_options) = false
  /\ Pipeline_call (ValueAccessor_writer standard_accessors no_options) c empty_world
     = (r, w')
  /\ exists wr, calls w' = (calls empty_world ++ wr)%list /\ Forall is_write wr.
Proof.
  cbv zeta. split; [reflexivity|]. split; [reflexivity|].
  apply (@writer_without_expand_never_clears CellRange _ standard_accessors no_options
           (mkCtx (Some (mkCellRange 1 1 3 3)) (VInt 5) []) empty_world
           (mkWorld [] [SetRawValue (mkCellRange 1 1 3 3) (VInt 5)])
           (Ok (mkCtx (Some (mkCellRange 1 1 3 3)) (grid_val [[VInt 5]])
                  [("scalar", VBool true)])));
    reflexivity.
Defined.
